(** * Revenue assurance pipeline: reconciliation and commission consolidation

    A shallow embedding of [src/pipeline/reconciliation.py] and
    [src/pipeline/combine_commissions.py].

    Conventions of the model.

    - A Python [str] is a Rocq [string] whose characters are read as the code
      points 0..255.
    - A monetary amount is a rational [Q].  pandas holds amounts as binary64
      numbers and rounds every sum and difference; the model computes them
      exactly.  What is stated of a computed sum or difference is therefore
      what holds whatever the rounding: the rows it is taken over, the
      comparison of a stored gap with the tolerance, and values that no
      rounding touches.  Sums written with [Qsum] in a statement are exact
      sums of the amounts on the rows, not cells that the scripts compute.
    - A pandas frame is kept row by row; of an input sheet the model keeps the
      header, made of texts, and the cells, and of the frames built by the
      script it keeps the columns the script itself creates and reads.
    - pandas calls follow the library's documented behaviour: [merge] with
      [how="outer"] pairs every left row with every right row of the same key
      and orders the result by key; [groupby] leaves out rows whose group key
      is NaN ([dropna=True]) and orders the groups by key.
    - Reading and writing files is outside the model: the workbook, the alias
      map and the configuration are arguments, and the result of a run is the
      frames that it hands to the writer.
    - The model of a run is partial: on a workbook whose headers collide with
      the columns that the script writes, and on a tolerance that is not
      finite, it gives no result ([Outside]). *)

From Stdlib Require Import List String Ascii Bool Arith PeanoNat Lia.
From Stdlib Require Import ZArith QArith Qabs Lqa.
From Stdlib Require Import Permutation Sorted.
Import ListNotations.

Local Open Scope string_scope.

(** ** Python string methods used by the scripts *)

Module Text.

Definition code (c : ascii) : nat := nat_of_ascii c.

Definition between (lo hi : nat) (c : ascii) : bool :=
  (lo <=? code c)%nat && (code c <=? hi)%nat.

Definition is_digit (c : ascii) : bool := between 48 57 c.
Definition is_upper (c : ascii) : bool := between 65 90 c.
Definition is_lower (c : ascii) : bool := between 97 122 c.

(** The regular expression class [[0-9A-Za-z]]. *)
Definition is_alnum (c : ascii) : bool := is_digit c || is_upper c || is_lower c.

(** [str.isspace] on the code points below 256: TAB..CR, FS..US, space,
    NEL and the no-break space. *)
Definition is_space (c : ascii) : bool :=
  between 9 13 c || between 28 32 c || (code c =? 133)%nat || (code c =? 160)%nat.

(** [str.upper] on an ASCII letter or digit, the only characters
    [normalize_key] hands to it. *)
Definition upper_char (c : ascii) : ascii :=
  if is_lower c then ascii_of_nat (code c - 32) else c.

(** [str.lower] on the code points below 256: A..Z and the accented capitals
    192..222 (not the multiplication sign 215) move up by 32. *)
Definition lower_char (c : ascii) : ascii :=
  if is_upper c || (between 192 222 c && negb (code c =? 215)%nat)
  then ascii_of_nat (code c + 32) else c.

Fixpoint smap (f : ascii -> ascii) (s : string) : string :=
  match s with
  | EmptyString => EmptyString
  | String c s' => String (f c) (smap f s')
  end.

Fixpoint sfilter (p : ascii -> bool) (s : string) : string :=
  match s with
  | EmptyString => EmptyString
  | String c s' => if p c then String c (sfilter p s') else sfilter p s'
  end.

Fixpoint sall (p : ascii -> bool) (s : string) : bool :=
  match s with
  | EmptyString => true
  | String c s' => p c && sall p s'
  end.

Definition upper (s : string) : string := smap upper_char s.
Definition lower (s : string) : string := smap lower_char s.

Fixpoint lstrip (s : string) : string :=
  match s with
  | EmptyString => EmptyString
  | String c s' => if is_space c then lstrip s' else s
  end.

Fixpoint rstrip (s : string) : string :=
  match s with
  | EmptyString => EmptyString
  | String c s' =>
      match rstrip s' with
      | EmptyString => if is_space c then EmptyString else String c EmptyString
      | r => String c r
      end
  end.

(** [str.strip()] with no argument. *)
Definition strip (s : string) : string := rstrip (lstrip s).

(** [re.sub(r"[^0-9A-Za-z]", "", s)]. *)
Definition remove_non_alnum (s : string) : string := sfilter is_alnum s.

(** Characters of a normalized key. *)
Definition is_key_char (c : ascii) : bool := is_digit c || is_upper c.

Arguments is_alnum : simpl never.
Arguments is_space : simpl never.
Arguments is_key_char : simpl never.
Arguments upper_char : simpl never.
Arguments lower_char : simpl never.

End Text.

(** ** The pandas operations the scripts rely on *)

Module Pandas.

Local Open Scope Q_scope.

(** A cell of a sheet as pandas loads it: [NA] is NaN (an empty cell),
    [Str s] is text that [pd.to_numeric] cannot read as a number, and
    [Num q repr] is a cell with the finite numeric value [q] whose [str()]
    is [repr].  A cell that holds an infinity, or a text that reads as one,
    is not represented. *)
Inductive cell :=
| NA
| Str (s : string)
| Num (q : Q) (repr : string).

Definition isna (c : cell) : bool :=
  match c with NA => true | _ => false end.

(** [Series.astype(str)], cell by cell: NaN becomes the text "nan". *)
Definition astype_str (c : cell) : string :=
  match c with
  | NA => "nan"
  | Str s => s
  | Num _ repr => repr
  end.

(** [pd.to_numeric(..., errors="coerce")], cell by cell; [None] is NaN. *)
Definition to_numeric (c : cell) : option Q :=
  match c with
  | Num q _ => Some q
  | _ => None
  end.

(** [Series.fillna(v)]. *)
Definition fillna {A} (v : A) (x : option A) : A :=
  match x with Some a => a | None => v end.

Record DataFrame := {
  columns : list string;
  rows : list (list cell)
}.

Fixpoint index_of (name : string) (cols : list string) : option nat :=
  match cols with
  | [] => None
  | c :: cols' =>
      if String.eqb c name then Some O
      else option_map S (index_of name cols')
  end.

Definition has_column (name : string) (df : DataFrame) : bool :=
  existsb (String.eqb name) (columns df).

(** [df[name]], read on one row [r] of the frame. *)
Definition cell_at (df : DataFrame) (name : string) (r : list cell) : cell :=
  match index_of name (columns df) with
  | Some i => nth i r NA
  | None => NA
  end.

Fixpoint lookup {A} (k : string) (d : list (string * A)) : option A :=
  match d with
  | [] => None
  | (k', v) :: d' => if String.eqb k' k then Some v else lookup k d'
  end.

(** The exact sum of a list of amounts. *)
Definition Qsum (l : list Q) : Q := fold_right Qplus 0 l.

(** Ordering rows, as [sort_values] and the sorted keys of [merge] and
    [groupby] do: a stable sort, rows that compare equal keep their order. *)
Section Sort.
Context {A : Type} (before : A -> A -> bool).

Fixpoint insert (x : A) (l : list A) : list A :=
  match l with
  | [] => [x]
  | y :: l' => if before y x then y :: insert x l' else x :: l
  end.

Definition sort (l : list A) : list A := fold_right insert [] l.

End Sort.

(** [groupby(keys)[value].sum()] with the default [dropna=True]: a row
    whose group key is NaN ([None]) belongs to no group; the groups come out
    with their keys in order. *)
Section GroupBy.
Context {K : Type} (same : K -> K -> bool) (before : K -> K -> bool).

(** The groups met so far, each with the values of its rows in the order of
    the rows. *)
Fixpoint add_to_group (k : K) (v : Q) (groups : list (K * list Q))
  : list (K * list Q) :=
  match groups with
  | [] => [(k, [v])]
  | (k', values) :: groups' =>
      if same k' k then (k', (values ++ [v])%list) :: groups'
      else (k', values) :: add_to_group k v groups'
  end.

Definition accumulate (groups : list (K * list Q)) (r : option K * Q)
  : list (K * list Q) :=
  match fst r with
  | Some k => add_to_group k (snd r) groups
  | None => groups
  end.

Definition groups_of (rows : list (option K * Q)) : list (K * list Q) :=
  sort (fun g h => before (fst g) (fst h)) (fold_left accumulate rows []).

(** The values of the rows with the key [k], in the order of the rows. *)
Definition values_of (k : K) (rows : list (option K * Q)) : list Q :=
  map snd (filter (fun r => match fst r with
                            | Some k' => same k' k
                            | None => false
                            end) rows).

(** The sum of the values of a group, as pandas computes it: in binary64,
    or in int64 when the column holds integers only.  The model does not
    compute it. *)
Variable series_sum : list Q -> Q.

Definition groupby_sum (rows : list (option K * Q)) : list (K * Q) :=
  map (fun g => (fst g, series_sum (snd g))) (groups_of rows).

End GroupBy.

(** The exact sum of the values that the groups selected by [p] hold. *)
Definition selected_total {K} (p : K -> bool) (groups : list (K * Q)) : Q :=
  Qsum (map snd (filter (fun g => p (fst g)) groups)).

End Pandas.

(** ** [src/pipeline/reconciliation.py] *)

Module Reconciliation.
Import Text Pandas.

Local Open Scope Q_scope.

(** *** Exceptions and results *)

(** The text of a [ValueError], by what it reports. *)
Inductive message :=
| Available_sheets (sheet_names : list string)              (* line 81 *)
| Missing_columns (name : string) (missing : list string)   (* line 100 *)
| Not_a_float (text : string).                              (* line 137 *)

Inductive error :=
| KeyError (keys : list string)   (* cfg: none of the keys is in the config *)
| ValueError (msg : message)
| TypeError                       (* float() of a null, a list or an object *)
| OverflowError.                  (* float() of an integer out of range *)

(** What the model says of a run, or of a part of it: its value, the
    exception it raises, or nothing ([Outside]) on an input that the model
    does not cover. *)
Inductive result (A : Type) :=
| Ok (a : A)
| Raise (e : error)
| Outside.
Arguments Ok {A} a.
Arguments Raise {A} e.
Arguments Outside {A}.

Definition bind {A B} (r : result A) (k : A -> result B) : result B :=
  match r with
  | Ok a => k a
  | Raise e => Raise e
  | Outside => Outside
  end.

Notation "x <- r ;; k" := (bind r (fun x => k))
  (at level 61, r at next level, right associativity).

(** *** Headers and configuration *)

(** [df.columns = df.columns.str.strip().str.lower()]. *)
Definition clean_columns (df : DataFrame) : DataFrame :=
  {| columns := map (fun c => lower (strip c)) (columns df); rows := rows df |}.

(** The entry [tolerance] of the config, by what [float()] makes of it at
    line 137. *)
Inductive tolerance_entry :=
| Number (q : Q)      (* a number, or a text or boolean that float() converts *)
| NotFinite           (* NaN or an infinity *)
| Null                (* null, a list or an object: TypeError *)
| Text (s : string)   (* a text that is no number: ValueError *)
| TooLarge.           (* an integer out of the range of float: OverflowError *)

(** The JSON config: its string entries, the optional list [provider_cols]
    and the optional entry [tolerance]. *)
Record Config := {
  entries : list (string * string);
  provider_cols : option (list string);
  tolerance : option tolerance_entry
}.

Fixpoint cfg_from (entries : list (string * string)) (keys : list string)
  : option string :=
  match keys with
  | [] => None
  | key :: keys' =>
      match lookup key entries with
      | Some v => Some v
      | None => cfg_from entries keys'
      end
  end.

Definition cfg (config : Config) (keys : list string) : result string :=
  match cfg_from (entries config) keys with
  | Some v => Ok v
  | None => Raise (KeyError keys)
  end.

(** *** Helpers of the script *)

Definition normalize_str (s : string) : string :=
  upper (remove_non_alnum (strip s)).

Definition normalize_cell (c : cell) : string := normalize_str (astype_str c).

Definition normalize_key (series : list cell) : list string :=
  map normalize_cell series.

(** [safe_sum]: 0 for [None], else the sum of the series.  pandas adds in
    binary64 and rounds; the model adds exactly, and the facts below state of
    a summary cell only what holds whatever the rounding. *)
Definition safe_sum (series : option (list Q)) : Q :=
  match series with
  | None => 0
  | Some l => Qsum l
  end.

(** [ensure_provider_column], read on one row [r]: the value that the new
    column [provider_<suffix>] has there. *)
Fixpoint ensure_provider_column (df : DataFrame) (candidates : list string)
  (r : list cell) : cell :=
  match candidates with
  | [] => NA
  | col :: rest =>
      let candidate := lower col in
      if has_column candidate df then cell_at df candidate r
      else ensure_provider_column df rest r
  end.

(** [Series.replace(provider_map)]: a text cell equal to a key of the map
    takes the mapped value; every other cell is kept. *)
Definition replace (provider_map : list (string * string)) (c : cell) : cell :=
  match c with
  | Str s =>
      match lookup s provider_map with
      | Some v => Str v
      | None => c
      end
  | _ => c
  end.

(** *** The frames of a run, row by row *)

(** [orders_df] as [main] has prepared it before the merge (lines 105-114). *)
Module Orders.
Record row := {
  key : string;
  provider_orders : cell;
  ExpectedCommissionUSD : Q
}.
End Orders.

(** [commissions_df] before the merge (lines 106-118). *)
Module Commissions.
Record row := {
  key : string;
  provider_commissions : cell;
  BilledCommissionUSD : Q
}.
End Commissions.

(** The [_merge] column written by [indicator=True]. *)
Inductive indicator := both | left_only | right_only.

Definition indicator_eqb (a b : indicator) : bool :=
  match a, b with
  | both, both | left_only, left_only | right_only, right_only => true
  | _, _ => false
  end.

(** A row of [DataFrame.merge(how="outer")]: the columns of the absent side
    are NaN. *)
Module Merge.
Record row := {
  key : string;
  provider_orders : cell;
  ExpectedCommissionUSD : option Q;
  provider_commissions : cell;
  BilledCommissionUSD : option Q;
  _merge : indicator
}.
End Merge.

(** A row of [merged] after lines 128-135. *)
Record MergedRow := {
  key : string;
  provider_orders : cell;
  provider_commissions : cell;
  ExpectedCommissionUSD : Q;
  BilledCommissionUSD : Q;
  CommissionGapUSD : Q;
  Provider : cell;
  _merge : indicator
}.

Module Summary.
Record row := {
  Category : string;
  Records : nat;
  ExpectedCommissionUSD : Q;
  BilledCommissionUSD : Q;
  CommissionGapUSD : Q
}.
End Summary.

(** The frames that a run hands to the [ExcelWriter] at lines 184-189.  The
    sheet [provider_summary] is modelled apart, and writing the file is not
    part of the model. *)
Record Output := {
  matches : list MergedRow;
  gaps : list MergedRow;
  orders_only : list MergedRow;
  commissions_only : list MergedRow;
  summary : list Summary.row;
  output_path : string
}.

(** *** Lines 105-118: provider, key and amount columns *)

(** The row of [orders_df] made of the row [r] of the sheet [df]: its
    provider, its key and its amount, read from the columns of the sheet as
    loaded. *)
Definition order_row (df : DataFrame) (orders_key orders_commission : string)
  (provider_cols : list string) (provider_map : list (string * string))
  (r : list cell) : Orders.row :=
  {| Orders.key := normalize_cell (cell_at df orders_key r);
     Orders.provider_orders :=
       replace provider_map (ensure_provider_column df provider_cols r);
     Orders.ExpectedCommissionUSD :=
       fillna 0 (to_numeric (cell_at df orders_commission r)) |}.

Definition commission_row (df : DataFrame)
  (commissions_key commissions_commission : string)
  (provider_cols : list string) (provider_map : list (string * string))
  (r : list cell) : Commissions.row :=
  {| Commissions.key := normalize_cell (cell_at df commissions_key r);
     Commissions.provider_commissions :=
       replace provider_map (ensure_provider_column df provider_cols r);
     Commissions.BilledCommissionUSD :=
       fillna 0 (to_numeric (cell_at df commissions_commission r)) |}.

Definition load_orders (df : DataFrame) (orders_key orders_commission : string)
  (provider_cols : list string) (provider_map : list (string * string))
  : list Orders.row :=
  map (order_row df orders_key orders_commission provider_cols provider_map)
      (rows df).

Definition load_commissions (df : DataFrame)
  (commissions_key commissions_commission : string)
  (provider_cols : list string) (provider_map : list (string * string))
  : list Commissions.row :=
  map (commission_row df commissions_key commissions_commission
                      provider_cols provider_map)
      (rows df).

(** *** Lines 120-126: the outer merge on [key] *)

Definition both_row (o : Orders.row) (c : Commissions.row) : Merge.row :=
  {| Merge.key := Orders.key o;
     Merge.provider_orders := Orders.provider_orders o;
     Merge.ExpectedCommissionUSD := Some (Orders.ExpectedCommissionUSD o);
     Merge.provider_commissions := Commissions.provider_commissions c;
     Merge.BilledCommissionUSD := Some (Commissions.BilledCommissionUSD c);
     Merge._merge := both |}.

Definition left_row (o : Orders.row) : Merge.row :=
  {| Merge.key := Orders.key o;
     Merge.provider_orders := Orders.provider_orders o;
     Merge.ExpectedCommissionUSD := Some (Orders.ExpectedCommissionUSD o);
     Merge.provider_commissions := NA;
     Merge.BilledCommissionUSD := None;
     Merge._merge := left_only |}.

Definition right_row (c : Commissions.row) : Merge.row :=
  {| Merge.key := Commissions.key c;
     Merge.provider_orders := NA;
     Merge.ExpectedCommissionUSD := None;
     Merge.provider_commissions := Commissions.provider_commissions c;
     Merge.BilledCommissionUSD := Some (Commissions.BilledCommissionUSD c);
     Merge._merge := right_only |}.

Definition has_key (k : string) (c : Commissions.row) : bool :=
  String.eqb (Commissions.key c) k.

Definition order_has_key (k : string) (o : Orders.row) : bool :=
  String.eqb (Orders.key o) k.

(** The rows of one order: one per commission with its key, or a single
    [left_only] row when there is none. *)
Definition rows_of_order (commissions : list Commissions.row) (o : Orders.row)
  : list Merge.row :=
  match filter (has_key (Orders.key o)) commissions with
  | [] => [left_row o]
  | cs => map (both_row o) cs
  end.

Definition unmatched (orders : list Orders.row) (c : Commissions.row) : bool :=
  negb (existsb (order_has_key (Commissions.key c)) orders).

(** Every row of the outer join, before pandas orders them by key. *)
Definition outer_rows (orders : list Orders.row)
  (commissions : list Commissions.row) : list Merge.row :=
  flat_map (rows_of_order commissions) orders
  ++ map right_row (filter (unmatched orders) commissions).

Definition key_before (x y : Merge.row) : bool :=
  String.ltb (Merge.key x) (Merge.key y).

(** [orders_df.merge(commissions_df, on="key", how="outer", indicator=True)]:
    the outer join, its keys in lexicographic order. *)
Definition merge (orders : list Orders.row) (commissions : list Commissions.row)
  : list Merge.row :=
  sort key_before (outer_rows orders commissions).

(** *** Lines 128-135: amounts, gap and provider of a merged row *)

(** [a.combine_first(b)]: [a] where it is not NaN, else [b]. *)
Definition combine_first (a b : cell) : cell :=
  if isna a then b else a.

Definition fillna_cell (v : cell) (c : cell) : cell :=
  if isna c then v else c.

(** The gap is the exact difference of the two amounts; line 130 computes
    it in binary64. *)
Definition fill (m : Merge.row) : MergedRow :=
  let expected := fillna 0 (Merge.ExpectedCommissionUSD m) in
  let billed := fillna 0 (Merge.BilledCommissionUSD m) in
  {| key := Merge.key m;
     provider_orders := Merge.provider_orders m;
     provider_commissions := Merge.provider_commissions m;
     ExpectedCommissionUSD := expected;
     BilledCommissionUSD := billed;
     CommissionGapUSD := expected - billed;
     Provider :=
       fillna_cell (Str "Unassigned")
         (combine_first (Merge.provider_orders m)
                        (Merge.provider_commissions m));
     _merge := Merge._merge m |}.

Definition merged_frame (orders : list Orders.row)
  (commissions : list Commissions.row) : list MergedRow :=
  map fill (merge orders commissions).

(** *** Lines 137-141: the four partitions *)

Definition Qgtb (x y : Q) : bool := negb (Qle_bool x y).

Definition is_indicator (i : indicator) (r : MergedRow) : bool :=
  indicator_eqb (_merge r) i.

(** [matches["CommissionGapUSD"].abs() > tolerance]. *)
Definition over_tolerance (tol : Q) (r : MergedRow) : bool :=
  Qgtb (Qabs (CommissionGapUSD r)) tol.

Definition matches_of (merged : list MergedRow) : list MergedRow :=
  filter (is_indicator both) merged.

Definition orders_only_of (merged : list MergedRow) : list MergedRow :=
  filter (is_indicator left_only) merged.

Definition commissions_only_of (merged : list MergedRow) : list MergedRow :=
  filter (is_indicator right_only) merged.

Definition gaps_of (tol : Q) (merged : list MergedRow) : list MergedRow :=
  filter (over_tolerance tol) (matches_of merged).

(** *** Lines 143-171: the summary frame *)

Definition summary_of (matches gaps orders_only commissions_only : list MergedRow)
  : list Summary.row :=
  let expected l := safe_sum (Some (map ExpectedCommissionUSD l)) in
  let billed l := safe_sum (Some (map BilledCommissionUSD l)) in
  let gap l := safe_sum (Some (map CommissionGapUSD l)) in
  [ {| Summary.Category := "Perfect Match";
       Summary.Records := List.length matches;
       Summary.ExpectedCommissionUSD := expected matches;
       Summary.BilledCommissionUSD := billed matches;
       Summary.CommissionGapUSD := gap matches |};
    {| Summary.Category := "Commission Gap";
       Summary.Records := List.length gaps;
       Summary.ExpectedCommissionUSD := expected gaps;
       Summary.BilledCommissionUSD := billed gaps;
       Summary.CommissionGapUSD := gap gaps |};
    {| Summary.Category := "Orders Missing Commission";
       Summary.Records := List.length orders_only;
       Summary.ExpectedCommissionUSD := expected orders_only;
       Summary.BilledCommissionUSD := 0;
       Summary.CommissionGapUSD := gap orders_only |};
    {| Summary.Category := "Commission Missing Order";
       Summary.Records := List.length commissions_only;
       Summary.ExpectedCommissionUSD := 0;
       Summary.BilledCommissionUSD := billed commissions_only;
       Summary.CommissionGapUSD := gap commissions_only |} ].

(** *** [main] *)

(** Lines 137-171 and the sheets written at lines 183-190. *)
Definition report (merged : list MergedRow) (tol : Q) (path : string) : Output :=
  let matches := matches_of merged in
  let orders_only := orders_only_of merged in
  let commissions_only := commissions_only_of merged in
  let gaps := gaps_of tol merged in
  {| matches := matches;
     gaps := gaps;
     orders_only := orders_only;
     commissions_only := commissions_only;
     summary := summary_of matches gaps orders_only commissions_only;
     output_path := path |}.

(** [sheets = {name.lower(): name for name in workbook.sheet_names}] and
    [workbook.parse(sheets[wanted])]: of several sheets with one lowered
    name the dict keeps the last. *)
Definition sheet_named (workbook : list (string * DataFrame)) (wanted : string)
  : option DataFrame :=
  lookup wanted (rev (map (fun s => (lower (fst s), snd s)) workbook)).

Definition missing_columns (df : DataFrame) (required : list string)
  : list string :=
  filter (fun col => negb (has_column col df)) required.

Definition default_provider_cols : list string :=
  ["provider"; "supplier"; "operator"].

(** *** The inputs that the model covers *)

Definition named (names : list string) (name : string) : bool :=
  existsb (String.eqb name) names.

Fixpoint distinct (names : list string) : bool :=
  match names with
  | [] => true
  | name :: rest => negb (named rest name) && distinct rest
  end.

(** The columns of a sheet once lines 105-118 have added the provider, the
    key and the amount. *)
Definition prepared_columns (df : DataFrame) (provider amount : string)
  : list string :=
  let with_provider := (columns df ++ [provider])%list in
  let with_key :=
    if named with_provider "key" then with_provider
    else (with_provider ++ ["key"])%list in
  (with_key ++ [amount])%list.

(** The columns of the merged frame: a column other than [key] that both
    frames have takes the suffix of its side, and [_merge] is added. *)
Definition merged_columns (left right : list string) : list string :=
  let shared name :=
    negb (String.eqb name "key") && named left name && named right name in
  (map (fun name => if shared name then String.append name "_order" else name)
       left
   ++ map (fun name =>
             if shared name then String.append name "_commission" else name)
          (filter (fun name => negb (String.eqb name "key")) right)
   ++ ["_merge"])%list.

(** The workbooks on which the model follows lines 102-135.  After the
    headers are cleaned no sheet has two columns of one name; no sheet has a
    column named [provider_orders], [provider_commissions] or [_merge], which
    the script and [merge] write; no amount column is the column [key], which
    lines 111-112 overwrite before the amount is read; and the suffixes of
    [merge] give no two columns of the merged frame one name.  On any other
    workbook the script reads a column that it has overwritten, or pandas
    raises, and the model says [Outside]. *)
Definition covered (orders_df commissions_df : DataFrame)
  (orders_commission commissions_commission : string) : bool :=
  distinct (columns orders_df) && distinct (columns commissions_df)
  && negb (existsb (named ["provider_orders"; "provider_commissions"; "_merge"])
                   (columns orders_df ++ columns commissions_df)%list)
  && negb (String.eqb orders_commission "key")
  && negb (String.eqb commissions_commission "key")
  && distinct
       (merged_columns
          (prepared_columns orders_df "provider_orders" "ExpectedCommissionUSD")
          (prepared_columns commissions_df "provider_commissions"
                            "BilledCommissionUSD")).

(** The local variables of [main] after line 102. *)
Record Inputs := {
  orders_df : DataFrame;
  commissions_df : DataFrame;
  orders_key : string;
  commissions_key : string;
  orders_commission : string;
  commissions_commission : string;
  provider_candidates : list string
}.

(** Lines 75-102 of [main]: the two sheets with their headers cleaned, the
    configured columns and the provider candidates, or the exception raised
    on the way.  The workbook of [input_file] is an argument. *)
Definition read_inputs (config : Config) (workbook : list (string * DataFrame))
  : result Inputs :=
  _ <- cfg config ["input_file"] ;;
  orders_sheet <- cfg config ["orders_sheet"; "odv_sheet"] ;;
  commissions_sheet <- cfg config ["commissions_sheet"; "com_sheet"] ;;
  match sheet_named workbook (lower orders_sheet),
        sheet_named workbook (lower commissions_sheet) with
  | Some orders_sheet_df, Some commissions_sheet_df =>
      let orders_df := clean_columns orders_sheet_df in
      let commissions_df := clean_columns commissions_sheet_df in
      orders_key <- cfg config ["orders_key"; "odv_key"] ;;
      commissions_key <- cfg config ["commissions_key"; "com_key"] ;;
      orders_commission <-
        cfg config ["orders_commission_col"; "odv_commission_col"] ;;
      commissions_commission <-
        cfg config ["commissions_commission_col"; "com_commission_col"] ;;
      let orders_key := lower (strip orders_key) in
      let commissions_key := lower (strip commissions_key) in
      let orders_commission := lower (strip orders_commission) in
      let commissions_commission := lower (strip commissions_commission) in
      match missing_columns orders_df [orders_key; orders_commission] with
      | col :: missing =>
          Raise (ValueError (Missing_columns "orders" (col :: missing)))
      | [] =>
      match missing_columns commissions_df
              [commissions_key; commissions_commission] with
      | col :: missing =>
          Raise (ValueError (Missing_columns "commissions" (col :: missing)))
      | [] =>
          if covered orders_df commissions_df
                     orders_commission commissions_commission
          then Ok {| orders_df := orders_df;
                     commissions_df := commissions_df;
                     orders_key := orders_key;
                     commissions_key := commissions_key;
                     orders_commission := orders_commission;
                     commissions_commission := commissions_commission;
                     provider_candidates :=
                       map lower (fillna default_provider_cols
                                         (provider_cols config)) |}
          else Outside
      end
      end
  | _, _ => Raise (ValueError (Available_sheets (map fst workbook)))
  end.

(** Lines 105-135: the merged frame of the inputs.  The alias map of
    [load_provider_map] is an argument. *)
Definition merged_of (i : Inputs) (provider_map : list (string * string))
  : list MergedRow :=
  merged_frame
    (load_orders (orders_df i) (orders_key i) (orders_commission i)
                 (provider_candidates i) provider_map)
    (load_commissions (commissions_df i) (commissions_key i)
                      (commissions_commission i)
                      (provider_candidates i) provider_map).

(** Lines 72-135 of [main]. *)
Definition load (config : Config) (workbook : list (string * DataFrame))
  (provider_map : list (string * string)) : result (list MergedRow) :=
  i <- read_inputs config workbook ;;
  Ok (merged_of i provider_map).

(** Line 137: [float(config.get("tolerance", 0.25))]. *)
Definition float_tolerance (config : Config) : result Q :=
  match tolerance config with
  | None => Ok (1 # 4)
  | Some (Number q) => Ok q
  | Some NotFinite => Outside
  | Some Null => Raise TypeError
  | Some (Text s) => Raise (ValueError (Not_a_float s))
  | Some TooLarge => Raise OverflowError
  end.

(** [main]: lines 72-135, then the tolerance (line 137), the partitions and
    the summary, then [output_file] (line 183).  [Ok out]: the run reaches
    the [ExcelWriter] with the frames [out]. *)
Definition main (config : Config) (workbook : list (string * DataFrame))
  (provider_map : list (string * string)) : result Output :=
  merged <- load config workbook provider_map ;;
  tol <- float_tolerance config ;;
  let written := report merged tol in
  output_file <- cfg config ["output_file"] ;;
  Ok (written output_file).

(** *** Sample data *)

Definition order (k : string) (expected : Q) : Orders.row :=
  {| Orders.key := k;
     Orders.provider_orders := NA;
     Orders.ExpectedCommissionUSD := expected |}.

Definition commission (k : string) (billed : Q) : Commissions.row :=
  {| Commissions.key := k;
     Commissions.provider_commissions := NA;
     Commissions.BilledCommissionUSD := billed |}.

Definition sample_config (tol : option Q) : Config :=
  {| entries :=
       [ ("input_file", "book.xlsx"); ("output_file", "out.xlsx");
         ("orders_sheet", "Orders"); ("commissions_sheet", "Commissions");
         ("orders_key", "Locator"); ("commissions_key", "Locator");
         ("orders_commission_col", "Expected");
         ("commissions_commission_col", "Billed") ];
     provider_cols := None;
     tolerance := option_map Number tol |}.

Definition sample_orders_sheet : DataFrame :=
  {| columns := ["Locator"; "Expected"; "Provider"; "Supplier"];
     rows := [ [Str " abc-123 "; Num 100 "100"; NA; Str "Acme"];
               [NA; Num 50 "50"; Str "Globex"; NA] ] |}.

Definition sample_commissions_sheet : DataFrame :=
  {| columns := [" locator"; "BILLED"];
     rows := [ [Str "ABC123"; Num (9974 # 100) "99.74"];
               [NA; Str "n/a"] ] |}.

Definition sample_workbook : list (string * DataFrame) :=
  [ ("Orders", sample_orders_sheet); ("Commissions", sample_commissions_sheet) ].

(** The inputs that the sample configuration and workbook give. *)
Definition sample_inputs : Inputs :=
  {| orders_df := clean_columns sample_orders_sheet;
     commissions_df := clean_columns sample_commissions_sheet;
     orders_key := "locator";
     commissions_key := "locator";
     orders_commission := "expected";
     commissions_commission := "billed";
     provider_candidates := default_provider_cols |}.

(** The first order and the first commission of the sample workbook, as
    loaded, and the merged row that pairs them. *)
Definition sample_pair : MergedRow :=
  fill (both_row (order "ABC123" 100) (commission "ABC123" (9974 # 100))).

(** *** Measures used to state the facts *)

(** Rows of the merged frame with a given indicator and key. *)
Definition row_is (i : indicator) (k : string) (r : MergedRow) : bool :=
  is_indicator i r && String.eqb (key r) k.

(** The merged rows that come from an order. *)
Definition of_order (r : MergedRow) : bool := negb (is_indicator right_only r).

(** What a merged row carries of the orders' expected commission. *)
Definition order_share (r : MergedRow) : Q :=
  if is_indicator right_only r then 0 else ExpectedCommissionUSD r.

(** The number of merged rows an order has: one per commission with its
    key, and one when there is none. *)
Definition copies (commissions : list Commissions.row) (o : Orders.row) : nat :=
  Nat.max 1 (List.length (filter (has_key (Orders.key o)) commissions)).

Definition times (n : nat) (q : Q) : Q := inject_Z (Z.of_nat n) * q.

(** *** The specification's wording of five properties

    These follow the text of the specification, not the script; the facts
    below compare them with the script. *)

(** "Every JoinedRecord appears in exactly one of the four partitions." *)
Definition in_exactly_one_partition (out : Output) (r : MergedRow) : Prop :=
  (In r (matches out) /\ ~ In r (gaps out)
   /\ ~ In r (orders_only out) /\ ~ In r (commissions_only out))
  \/ (~ In r (matches out) /\ In r (gaps out)
      /\ ~ In r (orders_only out) /\ ~ In r (commissions_only out))
  \/ (~ In r (matches out) /\ ~ In r (gaps out)
      /\ In r (orders_only out) /\ ~ In r (commissions_only out))
  \/ (~ In r (matches out) /\ ~ In r (gaps out)
      /\ ~ In r (orders_only out) /\ In r (commissions_only out)).

(** "sum(expectedCommission over PerfectMatch, CommissionGap and
    OrdersMissingCommission) == sum(expectedCommission over all order
    records)": the amounts on the rows of the three sheets add up to the
    amounts of the orders. *)
Definition conserves_expected (orders : list Orders.row) (out : Output) : Prop :=
  Qsum (map ExpectedCommissionUSD
          (matches out ++ gaps out ++ orders_only out))
  == Qsum (map Orders.ExpectedCommissionUSD orders).

(** "A record present on both sides is classified PerfectMatch when
    |gap| <= tolerance and CommissionGap when |gap| > tolerance": the one
    category or the other. *)
Definition classified_by_tolerance (out : Output) (tol : Q) (r : MergedRow)
  : Prop :=
  (Qabs (CommissionGapUSD r) <= tol ->
   In r (matches out) /\ ~ In r (gaps out))
  /\ (tol < Qabs (CommissionGapUSD r) ->
      In r (gaps out) /\ ~ In r (matches out)).

(** The ProviderResolver of the specification: the first candidate field,
    matched without regard to case, that is present and non-empty on the
    record; then the alias map; "Unassigned" when no field yields a value. *)
Definition non_empty (c : cell) : bool :=
  match c with
  | NA => false
  | Str s => negb (String.eqb s "")
  | Num _ _ => true
  end.

Fixpoint resolve_spec (df : DataFrame) (r : list cell)
  (candidateFields : list string) (aliasMap : list (string * string)) : string :=
  match candidateFields with
  | [] => "Unassigned"
  | f :: rest =>
      if has_column (lower f) df && non_empty (cell_at df (lower f) r)
      then let rawValue := astype_str (cell_at df (lower f) r) in
           fillna rawValue (lookup rawValue aliasMap)
      else resolve_spec df r rest aliasMap
  end.

(** "For every record the resolver picks the first candidate field that is
    present and non-empty on that record": the provider that the script
    gives a row of a sheet, once filled, is the one [resolve_spec] gives. *)
Definition resolves_per_record (df : DataFrame) (candidateFields : list string)
  (aliasMap : list (string * string)) : Prop :=
  forall r, In r (rows df) ->
    fillna_cell (Str "Unassigned")
      (replace aliasMap (ensure_provider_column df candidateFields r))
    = Str (resolve_spec df r candidateFields aliasMap).

(** "A tolerance strictly less than 0 is rejected with a configuration
    error before reconciliation starts." *)
Definition rejects_negative_tolerance (config : Config)
  (workbook : list (string * DataFrame)) (provider_map : list (string * string))
  : Prop :=
  forall t, tolerance config = Some (Number t) -> t < 0 ->
    exists e, main config workbook provider_map = Raise e.

(** The same configuration with another [tolerance] entry. *)
Definition with_tolerance (t : option tolerance_entry) (config : Config)
  : Config :=
  {| entries := entries config;
     provider_cols := provider_cols config;
     tolerance := t |}.

End Reconciliation.

(** ** [src/pipeline/combine_commissions.py] *)

Module CombineCommissions.
Import Pandas.

Local Open Scope Q_scope.

(** A row of the commission export, on the three required columns.
    [Provider] and [BookingLocator] hold text or are empty ([None]). *)
Record Row := {
  Provider : option string;
  BookingLocator : option string;
  BilledCommissionUSD : cell
}.

(** Line 27: [pd.to_numeric(df[VALUE_COL], errors="coerce").fillna(0)]. *)
Definition value (r : Row) : Q := fillna 0 (to_numeric (BilledCommissionUSD r)).

Definition pair_eqb (a b : string * string) : bool :=
  String.eqb (fst a) (fst b) && String.eqb (snd a) (snd b).

Definition pair_ltb (a b : string * string) : bool :=
  String.ltb (fst a) (fst b)
  || (String.eqb (fst a) (fst b) && String.ltb (snd a) (snd b)).

(** The group key of a row under [groupby([PROVIDER_COL, LOCATOR_COL])]. *)
Definition provider_locator (r : Row) : option (string * string) :=
  match Provider r, BookingLocator r with
  | Some p, Some l => Some (p, l)
  | _, _ => None
  end.

Section Sums.

(** pandas' sum of the values of a group (see [groupby_sum]). *)
Variable series_sum : list Q -> Q.

(** Lines 29-33: one row per (Provider, BookingLocator) with the summed
    value, sorted on the two columns. *)
Definition grouped (df : list Row) : list ((string * string) * Q) :=
  sort (fun g h => pair_ltb (fst g) (fst h))
    (groupby_sum pair_eqb pair_ltb series_sum
       (map (fun r => (provider_locator r, value r)) df)).

(** Lines 39-43: [df.groupby(LOCATOR_COL)[VALUE_COL].sum()]. *)
Definition orig_totals (df : list Row) : list (string * Q) :=
  groupby_sum String.eqb String.ltb series_sum
    (map (fun r => (BookingLocator r, value r)) df).

(** Lines 45-49: [grouped.groupby(LOCATOR_COL)[VALUE_COL].sum()]. *)
Definition grouped_totals (g : list ((string * string) * Q)) : list (string * Q) :=
  groupby_sum String.eqb String.ltb series_sum
    (map (fun r => (Some (snd (fst r)), snd r)) g).

End Sums.

(** Line 51: the outer merge of the two tables of totals on the locator.
    [None] stands for the NaN of the side that has no row. *)
Record Comparison := {
  Locator : string;
  OriginalValue : option Q;
  GroupedValue : option Q
}.

Definition comparison (orig grp : list (string * Q)) : list Comparison :=
  sort (fun a b => String.ltb (Locator a) (Locator b))
    (map (fun o => {| Locator := fst o;
                      OriginalValue := Some (snd o);
                      GroupedValue := lookup (fst o) grp |}) orig
     ++ map (fun g => {| Locator := fst g;
                         OriginalValue := None;
                         GroupedValue := Some (snd g) |})
            (filter (fun g => negb (existsb (fun o => String.eqb (fst o) (fst g)) orig))
                    grp)).

(** Line 55: the locators of the raw file that have no row after grouping. *)
Definition missing_after_group (c : list Comparison) : list Comparison :=
  filter (fun r => match OriginalValue r, GroupedValue r with
                   | Some _, None => true
                   | _, _ => false
                   end) c.

(** Rows of the raw file by locator, and rows that have a Provider. *)
Definition with_locator (locator : string) (r : Row) : bool :=
  match BookingLocator r with
  | Some l => String.eqb l locator
  | None => false
  end.

Definition with_provider (r : Row) : bool :=
  match Provider r with
  | Some _ => true
  | None => false
  end.

(** The claim that consolidation keeps the total of every locator: the
    values of the grouped rows of a locator add up to what the values of its
    raw rows add up to. *)
Definition preserves_locator_totals (series_sum : list Q -> Q) (df : list Row)
  : Prop :=
  forall locator,
    selected_total (fun k => String.eqb (snd k) locator) (grouped series_sum df)
    == Qsum (map value (filter (with_locator locator) df)).

Definition sample_export : list Row :=
  [ {| Provider := Some "Acme"; BookingLocator := Some "L1";
       BilledCommissionUSD := Num 10 "10" |};
    {| Provider := None; BookingLocator := Some "L1";
       BilledCommissionUSD := Num 5 "5" |};
    {| Provider := Some "Acme"; BookingLocator := Some "L1";
       BilledCommissionUSD := Str "n/a" |};
    {| Provider := Some "Acme"; BookingLocator := Some "L0";
       BilledCommissionUSD := Num 7 "7" |};
    {| Provider := Some "Aaa"; BookingLocator := Some "L1";
       BilledCommissionUSD := Num 1 "1" |} ].

End CombineCommissions.

(** ** Order of a sorted frame *)

Module Ordering.

(** Two rows next to each other in a frame sorted with [before]: the second
    is not before the first. *)
Definition in_order {A : Type} (before : A -> A -> bool) (a b : A) : Prop :=
  before b a = false.

End Ordering.

(** ** [reconciliation.py]: the provider breakdown *)

Module ProviderBreakdown.
Import Text Pandas Reconciliation.

Local Open Scope Q_scope.

(** Equality of two values of the column [Provider] as group keys: NaN
    falls in one group (the script groups with [dropna=False]), texts are
    compared as texts and numbers by value. *)
Definition cell_eqb (a b : cell) : bool :=
  match a, b with
  | NA, NA => true
  | Str s, Str t => String.eqb s t
  | Num q _, Num r _ => Qeq_bool q r
  | _, _ => false
  end.

(** The order of the group keys: numbers by value, then texts in
    lexicographic order, then the group of NaN. *)
Definition cell_before (a b : cell) : bool :=
  match a, b with
  | Num q _, Num r _ => negb (Qle_bool r q)
  | Num _ _, _ => true
  | Str s, Str t => String.ltb s t
  | Str _, NA => true
  | _, _ => false
  end.

(** One group of [df.groupby("Provider", dropna=False).agg(...)], on the
    columns [Provider] and [Records].  The three sums of a group, which
    pandas adds in binary64, are not part of the model. *)
Record Group := {
  group_Provider : cell;
  group_Records : nat
}.

Definition group_of_row (r : MergedRow) : Group :=
  {| group_Provider := Provider r;
     group_Records := 1 |}.

Definition add_row (g : Group) (r : MergedRow) : Group :=
  {| group_Provider := group_Provider g;
     group_Records := S (group_Records g) |}.

Fixpoint add_to_groups (r : MergedRow) (groups : list Group) : list Group :=
  match groups with
  | [] => [group_of_row r]
  | g :: groups' =>
      if cell_eqb (group_Provider g) (Provider r) then add_row g r :: groups'
      else g :: add_to_groups r groups'
  end.

Definition groupby_provider (df : list MergedRow) : list Group :=
  sort (fun g h => cell_before (group_Provider g) (group_Provider h))
       (fold_left (fun groups r => add_to_groups r groups) df []).

(** A row of the sheet [provider_summary], without its three sums. *)
Record row := {
  Category : string;
  Provider : cell;
  Records : nat
}.

(** [breakdown_by_provider]: nothing for an empty frame; else one row per
    provider, NaN shown as "Unassigned", under the label [category]. *)
Definition breakdown_by_provider (df : list MergedRow) (category : string)
  : list row :=
  match df with
  | [] => []
  | _ :: _ =>
      map (fun g =>
             {| Category := category;
                Provider := fillna_cell (Str "Unassigned") (group_Provider g);
                Records := group_Records g |})
          (groupby_provider df)
  end.

(** Lines 173-181 of [main]: the four breakdowns, one after the other. *)
Definition provider_summary (out : Output) : list row :=
  breakdown_by_provider (matches out) "Perfect Match"
  ++ breakdown_by_provider (gaps out) "Commission Gap"
  ++ breakdown_by_provider (orders_only out) "Orders Missing Commission"
  ++ breakdown_by_provider (commissions_only out) "Commission Missing Order".

(** The rows of a breakdown under one label. *)
Definition of_category (category : string) (l : list row) : list row :=
  filter (fun r => String.eqb (Category r) category) l.

(** A provider as the breakdown shows it. *)
Definition shown (c : cell) : cell := fillna_cell (Str "Unassigned") c.

(** The rows of a breakdown for the provider [q], and the rows of a sheet
    whose provider is shown as [q]. *)
Definition rows_of_provider (q : cell) (l : list row) : list row :=
  filter (fun r => cell_eqb q (Provider r)) l.

Definition sheet_of_provider (q : cell) (df : list MergedRow) : list MergedRow :=
  filter (fun r => cell_eqb q (shown (Reconciliation.Provider r))) df.

Definition total_records (l : list row) : nat :=
  fold_right Nat.add O (map Records l).

(** A test on providers that does not tell apart two equal keys. *)
Definition respects (p : cell -> bool) : Prop :=
  forall a b, cell_eqb a b = true -> p a = p b.

(** The groups and the rows that a test on providers selects. *)
Definition groups_where (p : cell -> bool) (groups : list Group) : list Group :=
  filter (fun g => p (group_Provider g)) groups.

Definition rows_where (p : cell -> bool) (df : list MergedRow) : list MergedRow :=
  filter (fun r => p (Reconciliation.Provider r)) df.

Definition group_records (groups : list Group) : nat :=
  fold_right Nat.add O (map group_Records groups).

(** The row that the breakdown makes of a group. *)
Definition row_of_group (category : string) (g : Group) : row :=
  {| Category := category;
     Provider := shown (group_Provider g);
     Records := group_Records g |}.

End ProviderBreakdown.

(** ** [combine_commissions.py]: the rest of the validation *)

Module Validation.
Import Pandas CombineCommissions.

(** Line 56: the locators that only the grouped file has. *)
Definition new_after_group (c : list Comparison) : list Comparison :=
  filter (fun r => match OriginalValue r, GroupedValue r with
                   | None, Some _ => true
                   | _, _ => false
                   end) c.

(** The validation of a raw table: lines 39-51. *)
Definition validation (series_sum : list Q -> Q) (df : list Row)
  : list Comparison :=
  comparison (orig_totals series_sum df)
             (grouped_totals series_sum (grouped series_sum df)).

(** Rows of the raw file with a given provider and locator. *)
Definition with_pair (p l : string) (r : Row) : bool :=
  match Provider r, BookingLocator r with
  | Some p', Some l' => String.eqb p' p && String.eqb l' l
  | _, _ => false
  end.

(** The raw rows that a grouped row stands for, those with its provider and
    its locator; and the grouped rows of a locator. *)
Definition members {V} (df : list Row) (g : (string * string) * V) : list Row :=
  filter (with_pair (fst (fst g)) (snd (fst g))) df.

Definition at_locator {V} (locator : string) (g : (string * string) * V) : bool :=
  String.eqb (snd (fst g)) locator.

End Validation.

(** ** [src/pipeline/sale_orders_cleaning.py] *)

Module SaleOrdersCleaning.
Import Text Pandas.

Definition is_hyphen (c : ascii) : bool := (code c =? 45)%nat.
Definition is_newline (c : ascii) : bool := (code c =? 10)%nat.
Definition is_comma (c : ascii) : bool := (code c =? 44)%nat.

(** The class [[A-Za-z0-9\-]]. *)
Definition allowed (c : ascii) : bool := is_alnum c || is_hyphen c.

(** [text.replace(",", " ")]. *)
Definition commas_to_spaces (s : string) : string :=
  smap (fun c => if is_comma c then " "%char else c) s.

(** The longest suffix of hyphens removed. *)
Fixpoint drop_trailing_hyphens (s : string) : string :=
  match s with
  | EmptyString => EmptyString
  | String c s' =>
      match drop_trailing_hyphens s' with
      | EmptyString => if is_hyphen c then EmptyString else String c EmptyString
      | r => String c r
      end
  end.

(** The text split before a final line feed: [$] matches at the end of the
    text and also just before a line feed that ends it. *)
Fixpoint before_final_newline (s : string) : option string :=
  match s with
  | EmptyString => None
  | String c EmptyString => if is_newline c then Some EmptyString else None
  | String c s' => option_map (String c) (before_final_newline s')
  end.

(** [re.sub(r"[-]+$", "", text)]: the hyphens at the end of the text, or
    those just before the line feed that ends it. *)
Definition sub_trailing_hyphens (s : string) : string :=
  match before_final_newline s with
  | Some body => drop_trailing_hyphens body ++ String "010"%char EmptyString
  | None => drop_trailing_hyphens s
  end.

(** [re.sub(r"[^A-Za-z0-9\-]", "", text)]. *)
Definition remove_not_allowed (s : string) : string := sfilter allowed s.

(** [re.sub(r"\s+", " ", text)]: [in_run] tells that the character before
    was white space, already replaced. *)
Fixpoint collapse_spaces (in_run : bool) (s : string) : string :=
  match s with
  | EmptyString => EmptyString
  | String c s' =>
      if is_space c
      then if in_run then collapse_spaces true s'
           else String " "%char (collapse_spaces true s')
      else String c (collapse_spaces false s')
  end.

(** [clean_confirmation]; [None] is Python's [None]. *)
Definition clean_confirmation (value : cell) : option string :=
  if isna value then None
  else
    let text := strip (astype_str value) in
    let text := commas_to_spaces text in
    let text := sub_trailing_hyphens text in
    let text := remove_not_allowed text in
    let text := strip (collapse_spaces false text) in
    if String.eqb text EmptyString then None else Some text.

(** What [clean_confirmation] gives without its last step (line 24). *)
Definition cleaned_text (value : cell) : string :=
  remove_not_allowed
    (sub_trailing_hyphens (commas_to_spaces (strip (astype_str value)))).

(** Lines 32-33: the column cleaned, the rows without a value dropped. *)
Fixpoint cleaned (column : list cell) : list string :=
  match column with
  | [] => []
  | value :: column' =>
      match clean_confirmation value with
      | Some text => text :: cleaned column'
      | None => cleaned column'
      end
  end.

(** [allowed_pattern.match(text)] for [^[A-Za-z0-9\-]+$]. *)
Definition allowed_pattern_match (s : string) : bool :=
  let body := match before_final_newline s with
              | Some b => b
              | None => s
              end in
  negb (String.eqb body EmptyString) && sall allowed body.

(** Line 36: the cleaned values that the pattern does not match. *)
Definition invalid_rows (column : list cell) : list string :=
  filter (fun x => negb (allowed_pattern_match x)) (cleaned column).

End SaleOrdersCleaning.

(** * Facts *)

(** ** Strings *)

Module TextFacts.
Import Text.

Lemma space_not_alnum c : is_space c = true -> is_alnum c = false.
Proof.
  destruct c as [[] [] [] [] [] [] [] []]; vm_compute; congruence.
Qed.

Lemma upper_char_key c : is_alnum c = true -> is_key_char (upper_char c) = true.
Proof.
  destruct c as [[] [] [] [] [] [] [] []]; vm_compute; congruence.
Qed.

Lemma key_char_alnum c : is_key_char c = true -> is_alnum c = true.
Proof.
  destruct c as [[] [] [] [] [] [] [] []]; vm_compute; congruence.
Qed.

Lemma key_char_upper c : is_key_char c = true -> upper_char c = c.
Proof.
  destruct c as [[] [] [] [] [] [] [] []]; vm_compute; congruence.
Qed.

Lemma upper_char_alnum c : is_alnum (upper_char c) = is_alnum c.
Proof.
  destruct c as [[] [] [] [] [] [] [] []]; vm_compute; congruence.
Qed.

Lemma upper_char_twice c : upper_char (upper_char c) = upper_char c.
Proof.
  destruct c as [[] [] [] [] [] [] [] []]; vm_compute; congruence.
Qed.

Lemma sfilter_lstrip s : remove_non_alnum (lstrip s) = remove_non_alnum s.
Proof.
  unfold remove_non_alnum.
  induction s as [|c s IH]; cbn [lstrip sfilter]; [reflexivity|].
  destruct (is_space c) eqn:Hc; [|reflexivity].
  rewrite IH, (space_not_alnum c Hc). reflexivity.
Qed.

Lemma sfilter_rstrip s : remove_non_alnum (rstrip s) = remove_non_alnum s.
Proof.
  unfold remove_non_alnum.
  induction s as [|c s IH]; cbn [rstrip sfilter]; [reflexivity|].
  destruct (rstrip s) as [|d r] eqn:Hr.
  - cbn [sfilter] in IH. rewrite <- IH.
    destruct (is_space c) eqn:Hc; cbn [sfilter].
    + rewrite (space_not_alnum c Hc). reflexivity.
    + reflexivity.
  - rewrite <- IH. reflexivity.
Qed.

Lemma sfilter_strip s : remove_non_alnum (strip s) = remove_non_alnum s.
Proof. unfold strip. rewrite sfilter_rstrip. apply sfilter_lstrip. Qed.

Lemma sall_upper_filter s : sall is_key_char (upper (remove_non_alnum s)) = true.
Proof.
  unfold upper, remove_non_alnum.
  induction s as [|c s IH]; cbn [sfilter smap sall]; [reflexivity|].
  destruct (is_alnum c) eqn:Hc; cbn [sfilter smap sall]; [|exact IH].
  rewrite (upper_char_key c Hc). exact IH.
Qed.

Lemma sall_filter_id s : sall is_key_char s = true -> remove_non_alnum s = s.
Proof.
  unfold remove_non_alnum.
  induction s as [|c s IH]; cbn [sfilter sall]; [reflexivity|].
  intros H. apply andb_true_iff in H as [Hc Hs].
  rewrite (key_char_alnum c Hc), (IH Hs). reflexivity.
Qed.

Lemma sall_upper_id s : sall is_key_char s = true -> upper s = s.
Proof.
  unfold upper.
  induction s as [|c s IH]; cbn [smap sall]; [reflexivity|].
  intros H. apply andb_true_iff in H as [Hc Hs].
  rewrite (key_char_upper c Hc), (IH Hs). reflexivity.
Qed.

Lemma filter_upper s : remove_non_alnum (upper s) = upper (remove_non_alnum s).
Proof.
  unfold upper, remove_non_alnum.
  induction s as [|c s IH]; cbn [sfilter smap]; [reflexivity|].
  rewrite upper_char_alnum. destruct (is_alnum c); cbn [smap].
  - rewrite IH. reflexivity.
  - exact IH.
Qed.

Lemma upper_twice s : upper (upper s) = upper s.
Proof.
  unfold upper.
  induction s as [|c s IH]; cbn [smap]; [reflexivity|].
  rewrite upper_char_twice, IH. reflexivity.
Qed.

Lemma lower_char_alnum c : is_alnum (lower_char c) = is_alnum c.
Proof.
  destruct c as [[] [] [] [] [] [] [] []]; vm_compute; congruence.
Qed.

Lemma upper_lower_char c :
  is_alnum c = true -> upper_char (lower_char c) = upper_char c.
Proof.
  destruct c as [[] [] [] [] [] [] [] []]; vm_compute; congruence.
Qed.

Lemma upper_filter_lower s :
  upper (remove_non_alnum (lower s)) = upper (remove_non_alnum s).
Proof.
  unfold upper, lower, remove_non_alnum.
  induction s as [|c s IH]; cbn [sfilter smap]; [reflexivity|].
  rewrite lower_char_alnum. destruct (is_alnum c) eqn:Hc; cbn [smap].
  - rewrite (upper_lower_char c Hc), IH. reflexivity.
  - exact IH.
Qed.

End TextFacts.

(** ** pandas operations *)

Module PandasFacts.
Import Pandas.

Local Open Scope Q_scope.

Lemma Qsum_app (l l' : list Q) : Qsum (l ++ l') == Qsum l + Qsum l'.
Proof.
  unfold Qsum.
  induction l as [|x l IH]; cbn [fold_right app].
  - ring.
  - rewrite IH. ring.
Qed.

Lemma Qsum_cons (x : Q) (l : list Q) : Qsum (x :: l) = x + Qsum l.
Proof. reflexivity. Qed.

Lemma Qsum_perm (l l' : list Q) : Permutation l l' -> Qsum l == Qsum l'.
Proof.
  induction 1 as [|x l l' _ IH|x y l|l l' l'' _ IH1 _ IH2].
  - reflexivity.
  - rewrite !Qsum_cons, IH. reflexivity.
  - rewrite !Qsum_cons. ring.
  - rewrite IH1. exact IH2.
Qed.

Lemma filter_perm {A} (f : A -> bool) (l l' : list A) :
  Permutation l l' -> Permutation (filter f l) (filter f l').
Proof.
  induction 1 as [|x l l' _ IH|x y l|l l' l'' _ IH1 _ IH2]; cbn [filter].
  - constructor.
  - destruct (f x); [constructor|]; exact IH.
  - destruct (f x), (f y); try reflexivity. constructor.
  - exact (Permutation_trans IH1 IH2).
Qed.

Section SortFacts.
Context {A : Type} (before : A -> A -> bool).

Lemma insert_perm (x : A) (l : list A) : Permutation (insert before x l) (x :: l).
Proof.
  induction l as [|y l IH]; cbn [insert]; [reflexivity|].
  destruct (before y x); [|reflexivity].
  rewrite IH. constructor.
Qed.

Lemma sort_perm (l : list A) : Permutation (sort before l) l.
Proof.
  induction l as [|x l IH]; cbn [sort fold_right]; [constructor|].
  fold (sort before l). rewrite insert_perm. constructor. exact IH.
Qed.

Lemma In_sort (x : A) (l : list A) : In x (sort before l) <-> In x l.
Proof.
  split; apply Permutation_in; [|symmetry]; apply sort_perm.
Qed.

End SortFacts.

End PandasFacts.

(** ** [reconciliation.py] *)

Module ReconciliationFacts.
Import Text Pandas Reconciliation TextFacts PandasFacts.

Local Open Scope Q_scope.

(** *** Key normalization *)

Lemma normalize_str_alt x : normalize_str x = upper (remove_non_alnum x).
Proof. unfold normalize_str. rewrite sfilter_strip. reflexivity. Qed.

Lemma normalize_str_key_chars x : sall is_key_char (normalize_str x) = true.
Proof. rewrite normalize_str_alt. apply sall_upper_filter. Qed.

Lemma normalize_str_fixed x : sall is_key_char x = true -> normalize_str x = x.
Proof.
  intros H. rewrite normalize_str_alt, (sall_filter_id x H). apply sall_upper_id, H.
Qed.

(** C7. [normalize_key] trims, drops every character outside [0-9A-Za-z]
    and uppercases what is left, so a key is made of digits and capital
    letters only; normalizing a key again changes nothing, on one string and
    on a whole column; the key does not depend on the case of the input; and
    " abc-123 " and "ABC123" both normalize to "ABC123". *)
Theorem normalize_key_idempotent :
  (forall x, normalize_str x = upper (remove_non_alnum (strip x))
             /\ sall is_key_char (normalize_str x) = true)
  /\ (forall x, normalize_str (normalize_str x) = normalize_str x)
  /\ (forall series,
        normalize_key (map Str (normalize_key series)) = normalize_key series)
  /\ (forall x, normalize_str (upper x) = normalize_str x
                /\ normalize_str (lower x) = normalize_str x)
  /\ normalize_str " abc-123 " = "ABC123"
  /\ normalize_str "ABC123" = "ABC123".
Proof.
  split; [|split; [|split; [|split; [|split]]]].
  - intros x. split; [reflexivity|apply normalize_str_key_chars].
  - intros x. apply normalize_str_fixed, normalize_str_key_chars.
  - intros series. unfold normalize_key. rewrite !map_map.
    apply map_ext. intros c. unfold normalize_cell at 1. cbn [astype_str].
    apply normalize_str_fixed, normalize_str_key_chars.
  - intros x. rewrite !normalize_str_alt. split.
    + rewrite filter_upper. apply upper_twice.
    + apply upper_filter_lower.
  - reflexivity.
  - reflexivity.
Qed.

(** *** The outer merge *)

Example merge_orders_rows_by_key :
  map (fun r => (key r, _merge r))
      (merged_frame [order "K" 10; order "K" 20; order "A" 1]
                    [commission "Z" 3; commission "K" 5; commission "B" 3])
  = [("A", left_only); ("B", right_only); ("K", both); ("K", both);
     ("Z", right_only)].
Proof. vm_compute. reflexivity. Qed.

Lemma merge_perm orders commissions :
  Permutation (merge orders commissions) (outer_rows orders commissions).
Proof. apply sort_perm. Qed.

Lemma merged_frame_perm orders commissions :
  Permutation (merged_frame orders commissions)
              (map fill (outer_rows orders commissions)).
Proof. apply Permutation_map, merge_perm. Qed.

Lemma has_key_true k c : has_key k c = true <-> Commissions.key c = k.
Proof. apply String.eqb_eq. Qed.

Lemma order_has_key_true k o : order_has_key k o = true <-> Orders.key o = k.
Proof. apply String.eqb_eq. Qed.

Lemma unmatched_true orders c :
  unmatched orders c = true
  <-> forall o, In o orders -> Orders.key o <> Commissions.key c.
Proof.
  unfold unmatched. rewrite negb_true_iff. split.
  - intros H o Ho E.
    assert (X : existsb (order_has_key (Commissions.key c)) orders = true)
      by (apply existsb_exists; exists o; split; [exact Ho|apply order_has_key_true, E]).
    congruence.
  - intros H. destruct (existsb _ orders) eqn:E; [|reflexivity].
    apply existsb_exists in E as (o & Ho & E).
    apply order_has_key_true in E. elim (H o Ho E).
Qed.

Lemma filter_has_key_nil k commissions :
  filter (has_key k) commissions = []
  <-> forall c, In c commissions -> Commissions.key c <> k.
Proof.
  split.
  - intros H c Hc E.
    assert (X : In c (filter (has_key k) commissions))
      by (apply filter_In; split; [exact Hc|apply has_key_true, E]).
    rewrite H in X. exact X.
  - intros H. destruct (filter (has_key k) commissions) as [|c l] eqn:E; [reflexivity|].
    assert (X : In c (filter (has_key k) commissions)) by (rewrite E; left; reflexivity).
    apply filter_In in X as [Hc Hk]. apply has_key_true in Hk. elim (H c Hc Hk).
Qed.

Lemma In_rows_of_order commissions o m :
  In m (rows_of_order commissions o)
  <-> (exists c, In c commissions /\ Commissions.key c = Orders.key o
                 /\ m = both_row o c)
      \/ ((forall c, In c commissions -> Commissions.key c <> Orders.key o)
          /\ m = left_row o).
Proof.
  unfold rows_of_order.
  destruct (filter (has_key (Orders.key o)) commissions) as [|c0 l] eqn:E.
  - pose proof (proj1 (filter_has_key_nil _ _) E) as Hnone. split.
    + intros [<-|[]]. right. split; [exact Hnone|reflexivity].
    + intros [(c & Hc & Hk & _)|[_ ->]]; [elim (Hnone c Hc Hk)|left; reflexivity].
  - rewrite <- E. rewrite in_map_iff. split.
    + intros (c & <- & Hc). apply filter_In in Hc as [Hc Hk].
      left. exists c. split; [exact Hc|]. split; [apply has_key_true, Hk|reflexivity].
    + intros [(c & Hc & Hk & ->)|[Hnone _]].
      * exists c. split; [reflexivity|].
        apply filter_In. split; [exact Hc|apply has_key_true, Hk].
      * assert (X : In c0 (filter (has_key (Orders.key o)) commissions))
          by (rewrite E; left; reflexivity).
        apply filter_In in X as [Hc Hk]. apply has_key_true in Hk.
        elim (Hnone c0 Hc Hk).
Qed.

(** The rows of the outer join, one by one. *)
Lemma In_outer_rows orders commissions m :
  In m (outer_rows orders commissions)
  <-> (exists o c, In o orders /\ In c commissions
                   /\ Commissions.key c = Orders.key o /\ m = both_row o c)
      \/ (exists o, In o orders
                    /\ (forall c, In c commissions ->
                                  Commissions.key c <> Orders.key o)
                    /\ m = left_row o)
      \/ (exists c, In c commissions
                    /\ (forall o, In o orders ->
                                  Orders.key o <> Commissions.key c)
                    /\ m = right_row c).
Proof.
  unfold outer_rows. rewrite in_app_iff, in_flat_map, in_map_iff. split.
  - intros [(o & Ho & Hm)|(c & <- & Hc)].
    + apply In_rows_of_order in Hm as [(c & Hc & Hk & ->)|[Hnone ->]].
      * left. exists o, c. auto.
      * right. left. exists o. auto.
    + apply filter_In in Hc as [Hc Hu]. right. right. exists c.
      split; [exact Hc|]. split; [apply unmatched_true, Hu|reflexivity].
  - intros [(o & c & Ho & Hc & Hk & ->)|[(o & Ho & Hnone & ->)|(c & Hc & Hnone & ->)]].
    + left. exists o. split; [exact Ho|]. apply In_rows_of_order. left. exists c. auto.
    + left. exists o. split; [exact Ho|]. apply In_rows_of_order. right. auto.
    + right. exists c. split; [reflexivity|].
      apply filter_In. split; [exact Hc|apply unmatched_true, Hnone].
Qed.

Lemma In_merged_frame orders commissions r :
  In r (merged_frame orders commissions)
  <-> exists m, In m (outer_rows orders commissions) /\ r = fill m.
Proof.
  unfold merged_frame. rewrite in_map_iff. split.
  - intros (m & <- & Hm). exists m. split; [|reflexivity].
    apply (Permutation_in _ (merge_perm _ _)), Hm.
  - intros (m & Hm & ->). exists m. split; [reflexivity|].
    apply (Permutation_in _ (Permutation_sym (merge_perm _ _))), Hm.
Qed.

(** Counting the rows of a key. *)

Lemma count_app {A} (p : A -> bool) (l l' : list A) :
  List.length (filter p (l ++ l'))
  = (List.length (filter p l) + List.length (filter p l'))%nat.
Proof. rewrite filter_app. apply length_app. Qed.

Lemma count_perm {A} (p : A -> bool) (l l' : list A) :
  Permutation l l' -> List.length (filter p l) = List.length (filter p l').
Proof. intros H. apply Permutation_length, filter_perm, H. Qed.

Lemma count_both_rows i k o cs :
  List.length (filter (row_is i k) (map fill (map (both_row o) cs)))
  = if indicator_eqb both i && String.eqb (Orders.key o) k
    then List.length cs else O.
Proof.
  induction cs as [|c cs IH]; cbn [map filter].
  - destruct (_ && _); reflexivity.
  - unfold row_is at 1, is_indicator. cbn [fill both_row _merge key Merge._merge Merge.key].
    fold (row_is i k). 
    destruct (indicator_eqb both i && String.eqb (Orders.key o) k);
      cbn [List.length]; rewrite IH; reflexivity.
Qed.

Lemma count_rows_of_order i k cs o :
  List.length (filter (row_is i k) (map fill (rows_of_order cs o)))
  = if order_has_key k o
    then match i with
         | both => List.length (filter (has_key k) cs)
         | left_only =>
             if (List.length (filter (has_key k) cs) =? 0)%nat then 1%nat else O
         | right_only => O
         end
    else O.
Proof.
  unfold rows_of_order, order_has_key.
  destruct (String.eqb (Orders.key o) k) eqn:Ek.
  - apply String.eqb_eq in Ek. subst k.
    destruct (filter (has_key (Orders.key o)) cs) as [|c l] eqn:E.
    + cbn [map filter]. unfold row_is, is_indicator.
      cbn [fill left_row _merge key Merge._merge Merge.key].
      rewrite String.eqb_refl. destruct i; reflexivity.
    + rewrite count_both_rows, String.eqb_refl. destruct i; reflexivity.
  - destruct (filter (has_key (Orders.key o)) cs) as [|c l].
    + cbn [map filter]. unfold row_is, is_indicator.
      cbn [fill left_row _merge key Merge._merge Merge.key].
      rewrite Ek, andb_false_r. reflexivity.
    + rewrite count_both_rows, Ek, andb_false_r. reflexivity.
Qed.

Lemma count_flat_map i k cs orders :
  List.length (filter (row_is i k) (map fill (flat_map (rows_of_order cs) orders)))
  = match i with
    | both =>
        (List.length (filter (order_has_key k) orders)
         * List.length (filter (has_key k) cs))%nat
    | left_only =>
        if (List.length (filter (has_key k) cs) =? 0)%nat
        then List.length (filter (order_has_key k) orders) else O
    | right_only => O
    end.
Proof.
  induction orders as [|o orders IH]; cbn [flat_map filter].
  - destruct i; cbn; try reflexivity. destruct (_ =? _)%nat; reflexivity.
  - rewrite map_app, count_app, IH, count_rows_of_order.
    destruct (order_has_key k o); cbn [List.length];
      destruct i; try reflexivity; try lia.
    destruct (_ =? _)%nat; lia.
Qed.

Lemma existsb_order_count k orders :
  existsb (order_has_key k) orders
  = negb (List.length (filter (order_has_key k) orders) =? 0)%nat.
Proof.
  induction orders as [|o orders IH]; cbn [existsb filter]; [reflexivity|].
  destruct (order_has_key k o); cbn [orb List.length]; [reflexivity|exact IH].
Qed.

Lemma count_right_rows i k orders cs :
  List.length (filter (row_is i k)
                 (map fill (map right_row (filter (unmatched orders) cs))))
  = match i with
    | right_only =>
        if (List.length (filter (order_has_key k) orders) =? 0)%nat
        then List.length (filter (has_key k) cs) else O
    | _ => O
    end.
Proof.
  induction cs as [|c cs IH]; cbn [filter map].
  - destruct i; try reflexivity. destruct (_ =? _)%nat; reflexivity.
  - assert (Hu : has_key k c = true ->
                 unmatched orders c
                 = (List.length (filter (order_has_key k) orders) =? 0)%nat).
    { intros Ek. apply has_key_true in Ek. subst k.
      unfold unmatched. rewrite existsb_order_count. apply negb_involutive. }
    destruct (unmatched orders c) eqn:Eu; cbn [map filter].
    + unfold row_is at 1, is_indicator.
      cbn [fill right_row _merge key Merge._merge Merge.key].
      change (String.eqb (Commissions.key c) k) with (has_key k c).
      fold (row_is i k).
      destruct (has_key k c) eqn:Ek.
      * rewrite <- (Hu eq_refl).
        destruct i; cbn [indicator_eqb andb List.length]; rewrite IH;
          try reflexivity.
        rewrite <- (Hu eq_refl). reflexivity.
      * rewrite andb_false_r, IH. reflexivity.
    + rewrite IH. destruct (has_key k c) eqn:Ek; [|reflexivity].
      rewrite <- (Hu eq_refl). destruct i; reflexivity.
Qed.

Lemma count_merged i k orders commissions :
  List.length (filter (row_is i k) (merged_frame orders commissions))
  = match i with
    | both =>
        (List.length (filter (order_has_key k) orders)
         * List.length (filter (has_key k) commissions))%nat
    | left_only =>
        if (List.length (filter (has_key k) commissions) =? 0)%nat
        then List.length (filter (order_has_key k) orders) else O
    | right_only =>
        if (List.length (filter (order_has_key k) orders) =? 0)%nat
        then List.length (filter (has_key k) commissions) else O
    end.
Proof.
  rewrite (count_perm _ _ _ (merged_frame_perm orders commissions)).
  unfold outer_rows. rewrite map_app, count_app, count_flat_map, count_right_rows.
  destruct i; lia.
Qed.

(** C4. The merged frame is the full outer join on the key, with the cross
    product on duplicate keys: for a key [k] carried by [n_o] orders and
    [n_c] commissions it holds [n_o * n_c] rows marked [both], [n_o] rows
    marked [left_only] when [n_c = 0] and [n_c] rows marked [right_only] when
    [n_o = 0]; every pair sharing a key, every unmatched order and every
    unmatched commission has its row and there are no other rows; an
    order-only row has billed 0 and its gap is its expected amount, a
    commission-only row has expected 0.  Two orders "K" (10 and 20) and one
    commission "K" (5) give exactly two rows, with gaps 5 and 15. *)
Theorem outer_join_cross_product :
  (forall orders commissions,
      let merged := merged_frame orders commissions in
      (forall k,
          let n_o := List.length (filter (order_has_key k) orders) in
          let n_c := List.length (filter (has_key k) commissions) in
          List.length (filter (row_is both k) merged) = (n_o * n_c)%nat
          /\ List.length (filter (row_is left_only k) merged)
             = (if (n_c =? 0)%nat then n_o else O)
          /\ List.length (filter (row_is right_only k) merged)
             = (if (n_o =? 0)%nat then n_c else O))
      /\ (forall o c, In o orders -> In c commissions ->
                      Commissions.key c = Orders.key o ->
                      In (fill (both_row o c)) merged)
      /\ (forall o, In o orders ->
                    (forall c, In c commissions ->
                               Commissions.key c <> Orders.key o) ->
                    In (fill (left_row o)) merged)
      /\ (forall c, In c commissions ->
                    (forall o, In o orders ->
                               Orders.key o <> Commissions.key c) ->
                    In (fill (right_row c)) merged)
      /\ (forall r, In r merged ->
            (exists o c, In o orders /\ In c commissions
                         /\ Commissions.key c = Orders.key o
                         /\ r = fill (both_row o c))
            \/ (exists o, In o orders
                          /\ (forall c, In c commissions ->
                                        Commissions.key c <> Orders.key o)
                          /\ r = fill (left_row o))
            \/ (exists c, In c commissions
                          /\ (forall o, In o orders ->
                                        Orders.key o <> Commissions.key c)
                          /\ r = fill (right_row c))))
  /\ (forall o c,
        let r := fill (both_row o c) in
        _merge r = both /\ key r = Orders.key o
        /\ ExpectedCommissionUSD r = Orders.ExpectedCommissionUSD o
        /\ BilledCommissionUSD r = Commissions.BilledCommissionUSD c
        /\ CommissionGapUSD r
           = Orders.ExpectedCommissionUSD o - Commissions.BilledCommissionUSD c)
  /\ (forall o,
        let r := fill (left_row o) in
        _merge r = left_only /\ key r = Orders.key o
        /\ ExpectedCommissionUSD r = Orders.ExpectedCommissionUSD o
        /\ BilledCommissionUSD r = 0
        /\ CommissionGapUSD r == ExpectedCommissionUSD r)
  /\ (forall c,
        let r := fill (right_row c) in
        _merge r = right_only /\ key r = Commissions.key c
        /\ ExpectedCommissionUSD r = 0
        /\ BilledCommissionUSD r = Commissions.BilledCommissionUSD c
        /\ CommissionGapUSD r == - BilledCommissionUSD r)
  /\ map (fun r => (_merge r, CommissionGapUSD r))
         (merged_frame [order "K" 10; order "K" 20] [commission "K" 5])
     = [(both, 5); (both, 15)].
Proof.
  split; [|split; [|split; [|split]]].
  - intros orders commissions merged. subst merged.
    split; [|split; [|split; [|split]]].
    + intros k. cbv zeta.
      rewrite !count_merged. repeat split; reflexivity.
    + intros o c Ho Hc Hk. apply In_merged_frame. exists (both_row o c).
      split; [|reflexivity]. apply In_outer_rows. left. exists o, c. auto.
    + intros o Ho Hnone. apply In_merged_frame. exists (left_row o).
      split; [|reflexivity]. apply In_outer_rows. right. left. exists o. auto.
    + intros c Hc Hnone. apply In_merged_frame. exists (right_row c).
      split; [|reflexivity]. apply In_outer_rows. right. right. exists c. auto.
    + intros r Hr. apply In_merged_frame in Hr as (m & Hm & ->).
      apply In_outer_rows in Hm
        as [(o & c & Ho & Hc & Hk & ->)|[(o & Ho & Hn & ->)|(c & Hc & Hn & ->)]].
      * left. exists o, c. auto.
      * right. left. exists o. auto.
      * right. right. exists c. auto.
  - intros o c. cbn. repeat split; reflexivity.
  - intros o. cbn. repeat split; try reflexivity.
    unfold Qminus. ring.
  - intros c. cbn. repeat split; try reflexivity.
    unfold Qminus. ring.
  - vm_compute. reflexivity.
Qed.

(** *** The partitions *)

Lemma indicator_eqb_eq a b : indicator_eqb a b = true <-> a = b.
Proof. destruct a, b; cbn; split; congruence. Qed.

Lemma In_matches merged r :
  In r (matches_of merged) <-> In r merged /\ _merge r = both.
Proof.
  unfold matches_of. rewrite filter_In. unfold is_indicator.
  rewrite indicator_eqb_eq. reflexivity.
Qed.

Lemma In_orders_only merged r :
  In r (orders_only_of merged) <-> In r merged /\ _merge r = left_only.
Proof.
  unfold orders_only_of. rewrite filter_In. unfold is_indicator.
  rewrite indicator_eqb_eq. reflexivity.
Qed.

Lemma In_commissions_only merged r :
  In r (commissions_only_of merged) <-> In r merged /\ _merge r = right_only.
Proof.
  unfold commissions_only_of. rewrite filter_In. unfold is_indicator.
  rewrite indicator_eqb_eq. reflexivity.
Qed.

Lemma Qgtb_lt x y : Qgtb x y = true <-> y < x.
Proof.
  unfold Qgtb. rewrite negb_true_iff. split.
  - intros H. apply Qnot_le_lt. intros L. apply Qle_bool_iff in L. congruence.
  - intros H. destruct (Qle_bool x y) eqn:E; [|reflexivity].
    apply Qle_bool_iff in E. elim (Qlt_not_le _ _ H E).
Qed.

Lemma In_gaps tol merged r :
  In r (gaps_of tol merged)
  <-> In r (matches_of merged) /\ tol < Qabs (CommissionGapUSD r).
Proof.
  unfold gaps_of. rewrite filter_In. unfold over_tolerance.
  rewrite Qgtb_lt. reflexivity.
Qed.

Lemma partition_perm merged :
  Permutation merged
    (matches_of merged ++ orders_only_of merged ++ commissions_only_of merged).
Proof.
  unfold matches_of, orders_only_of, commissions_only_of, is_indicator.
  induction merged as [|r merged IH]; cbn [filter app]; [constructor|].
  destruct (_merge r); cbn [indicator_eqb app].
  - constructor. exact IH.
  - rewrite IH at 1. apply Permutation_middle.
  - rewrite IH at 1. rewrite !app_assoc. apply Permutation_middle.
Qed.

(** C1, as the code has it. The sheets [matches], [orders_only] and
    [commissions_only] split the merged frame: together they hold its rows,
    each row once, and every row is in exactly one of the three.  The sheet
    [gaps] is not a fourth part: it holds the rows of [matches] whose gap
    exceeds the tolerance, and they stay in [matches]. *)
Theorem three_partitions_and_gap_subset (merged : list MergedRow) (tol : Q)
  (path : string) :
  let out := report merged tol path in
  Permutation merged (matches out ++ orders_only out ++ commissions_only out)
  /\ (forall r, In r merged <->
        (In r (matches out)
         /\ ~ In r (orders_only out) /\ ~ In r (commissions_only out))
        \/ (~ In r (matches out)
            /\ In r (orders_only out) /\ ~ In r (commissions_only out))
        \/ (~ In r (matches out)
            /\ ~ In r (orders_only out) /\ In r (commissions_only out)))
  /\ (forall r, In r (gaps out) <->
        In r (matches out) /\ tol < Qabs (CommissionGapUSD r)).
Proof.
  cbn [report matches orders_only commissions_only gaps].
  split; [apply partition_perm|]. split; [|intros r; apply In_gaps].
  intros r. rewrite In_matches, In_orders_only, In_commissions_only.
  split.
  - intros Hr. destruct (_merge r) eqn:E.
    + left. repeat split; trivial; intros [_ X]; discriminate.
    + right. left. repeat split; trivial; intros [_ X]; discriminate.
    + right. right. repeat split; trivial; intros [_ X]; discriminate.
  - intros [[[H _] _]|[[_ [[H _] _]]|[_ [_ [H _]]]]]; exact H.
Qed.

(** C1, refuted as worded: in the run on the sample workbook the row of
    "ABC123" (expected 100, billed 99.74) is on the sheet [matches] and on
    the sheet [gaps]. *)
Lemma gap_row_is_also_a_match :
  exists out,
    main (sample_config None) sample_workbook [] = Ok out
    /\ In sample_pair (matches out) /\ In sample_pair (gaps out)
    /\ ~ in_exactly_one_partition out sample_pair.
Proof.
  eexists. split; [vm_compute; reflexivity|].
  split; [left; reflexivity|]. split; [left; reflexivity|].
  unfold in_exactly_one_partition.
  intros [(_ & H & _)|[(H & _)|[(H & _)|(H & _)]]]; apply H; left; reflexivity.
Qed.

(** C3, as the code has it. A row marked [both] is always on [matches]; it
    is on [gaps] as well exactly when the magnitude of its stored gap exceeds
    the tolerance, so a gap of exactly the tolerance is no gap.  With
    tolerance 0.25, expected 100 and billed 99.75 (a gap of exactly 0.25)
    give a match that is no gap; expected 100 and the binary64 number nearest
    to 99.74 give a row that is on both sheets.  In both samples the
    difference is exact in binary64. *)
Theorem tolerance_comparison_inclusive :
  (forall merged tol path r,
      let out := report merged tol path in
      In r merged -> _merge r = both ->
      In r (matches out)
      /\ (In r (gaps out) <-> tol < Qabs (CommissionGapUSD r))
      /\ (Qabs (CommissionGapUSD r) <= tol -> ~ In r (gaps out)))
  /\ (let out := report (merged_frame [order "K" 100]
                                       [commission "K" (9975 # 100)])
                        (1 # 4) "out.xlsx" in
      map CommissionGapUSD (matches out) = [25 # 100] /\ gaps out = [])
  /\ (let out := report (merged_frame
                           [order "K" 100]
                           [commission "K" (7018578544280207 # 70368744177664)])
                        (1 # 4) "out.xlsx" in
      List.length (matches out) = 1%nat /\ gaps out = matches out).
Proof.
  split; [|split; vm_compute; auto].
  intros merged tol path r out Hr Hb. subst out.
  cbn [report matches gaps].
  assert (Hm : In r (matches_of merged)) by (apply In_matches; auto).
  split; [exact Hm|]. split.
  - rewrite In_gaps. tauto.
  - intros Hle Hg. apply In_gaps in Hg as [_ Hlt].
    exact (Qlt_not_le _ _ Hlt Hle).
Qed.

(** C3, refuted as worded: in the run on the sample workbook the gap of the
    row of "ABC123" (expected 100, billed 99.74) exceeds the tolerance 0.25;
    the row is on [gaps] and it is still on [matches], where the summary
    counts it under "Perfect Match". *)
Lemma row_over_tolerance_is_still_a_match :
  exists out,
    main (sample_config None) sample_workbook [] = Ok out
    /\ _merge sample_pair = both
    /\ (1 # 4) < Qabs (CommissionGapUSD sample_pair)
    /\ In sample_pair (gaps out) /\ In sample_pair (matches out)
    /\ map (fun row => (Summary.Category row, Summary.Records row))
           (firstn 2 (summary out))
       = [("Perfect Match", 2%nat); ("Commission Gap", 2%nat)]
    /\ ~ classified_by_tolerance out (1 # 4) sample_pair.
Proof.
  assert (Hlt : (1 # 4) < Qabs (CommissionGapUSD sample_pair))
    by (vm_compute; reflexivity).
  eexists. split; [vm_compute; reflexivity|].
  split; [reflexivity|]. split; [exact Hlt|].
  split; [left; reflexivity|]. split; [left; reflexivity|].
  split; [reflexivity|].
  intros [_ H]. destruct (H Hlt) as [_ Hn]. apply Hn. left. reflexivity.
Qed.

(** *** The summary *)

Example summary_of_sample_run :
  match main (sample_config None) sample_workbook [] with
  | Ok out =>
      map (fun row => (Summary.Category row, Summary.Records row)) (summary out)
      = [("Perfect Match", 2%nat); ("Commission Gap", 2%nat);
         ("Orders Missing Commission", O); ("Commission Missing Order", O)]
      /\ map key (matches out) = ["ABC123"; "NAN"]
      /\ map Provider (matches out) = [Str "Unassigned"; Str "Globex"]
      /\ output_path out = "out.xlsx"
  | _ => False
  end.
Proof. vm_compute. repeat split; reflexivity. Qed.

Example missing_column_raises :
  main (sample_config None)
       [("Orders", sample_orders_sheet);
        ("Commissions", {| columns := ["locator"]; rows := [] |})] []
  = Raise (ValueError (Missing_columns "commissions" ["billed"]))
  /\ main (sample_config None) [("Orders", sample_orders_sheet)] []
     = Raise (ValueError (Available_sheets ["Orders"]))
  /\ main {| entries := []; provider_cols := None;
             tolerance := Some (Number (-1)) |}
          sample_workbook []
     = Raise (KeyError ["input_file"])
  /\ main (with_tolerance (Some Null) (sample_config None)) sample_workbook []
     = Raise TypeError
  /\ main (with_tolerance (Some (Text "low")) (sample_config None))
          sample_workbook []
     = Raise (ValueError (Not_a_float "low")).
Proof. repeat split; vm_compute; reflexivity. Qed.

(** A sheet with a column that the script writes itself is not covered. *)
Example overwritten_column_is_outside :
  main (sample_config None)
       [("Orders", {| columns := ["Locator"; "Expected"; "provider_orders"];
                      rows := [] |});
        ("Commissions", sample_commissions_sheet)] []
  = Outside.
Proof. vm_compute. reflexivity. Qed.

Lemma main_report config workbook provider_map out :
  main config workbook provider_map = Ok out ->
  exists merged tol path,
    load config workbook provider_map = Ok merged
    /\ float_tolerance config = Ok tol
    /\ cfg config ["output_file"] = Ok path
    /\ out = report merged tol path.
Proof.
  unfold main, bind.
  destruct (load config workbook provider_map) as [merged|e|]; try discriminate.
  destruct (float_tolerance config) as [tol|e|]; try discriminate.
  destruct (cfg config ["output_file"]) as [path|e|]; try discriminate.
  intros [= <-]. exists merged, tol, path. auto.
Qed.

Lemma length_zero_nil {A} (l : list A) : List.length l = O -> l = [].
Proof. destruct l; [reflexivity|discriminate]. Qed.

(** C8. A run that ends writes a summary of exactly four rows, "Perfect
    Match", "Commission Gap", "Orders Missing Commission" and "Commission
    Missing Order" in that order, whose counts are the sizes of the four
    sheets; a category without rows is there too, with count 0 and sums 0. *)
Theorem summary_has_four_rows config workbook provider_map out :
  main config workbook provider_map = Ok out ->
  map Summary.Category (summary out)
  = ["Perfect Match"; "Commission Gap"; "Orders Missing Commission";
     "Commission Missing Order"]
  /\ map Summary.Records (summary out)
     = [List.length (matches out); List.length (gaps out);
        List.length (orders_only out); List.length (commissions_only out)]
  /\ (forall row, In row (summary out) -> Summary.Records row = O ->
        Summary.ExpectedCommissionUSD row = 0
        /\ Summary.BilledCommissionUSD row = 0
        /\ Summary.CommissionGapUSD row = 0).
Proof.
  intros H. apply main_report in H as (merged & tol & path & _ & _ & _ & ->).
  cbn [report summary matches gaps orders_only commissions_only summary_of map].
  split; [reflexivity|]. split; [reflexivity|].
  intros row [<-|[<-|[<-|[<-|[]]]]]; cbn [Summary.Records Summary.ExpectedCommissionUSD
    Summary.BilledCommissionUSD Summary.CommissionGapUSD];
    intros Hz; apply length_zero_nil in Hz; rewrite Hz; repeat split; reflexivity.
Qed.

Lemma summary_has_four_rows_witness :
  exists out,
    main (sample_config None) sample_workbook [] = Ok out
    /\ map Summary.Records (summary out) = [2%nat; 2%nat; O; O]
    /\ map Summary.Category (summary out)
       = ["Perfect Match"; "Commission Gap"; "Orders Missing Commission";
          "Commission Missing Order"].
Proof.
  eexists. split; [vm_compute; reflexivity|]. split; [reflexivity|].
  apply (summary_has_four_rows (sample_config None) sample_workbook []).
  vm_compute. reflexivity.
Defined.

(** *** Expected commission of the orders across the sheets *)

Lemma times_S n q : times (S n) q == q + times n q.
Proof.
  unfold times. rewrite Nat2Z.inj_succ, <- Z.add_1_r, inject_Z_plus. ring.
Qed.

Lemma sum_matches_orders_only merged :
  Qsum (map ExpectedCommissionUSD (matches_of merged))
  + Qsum (map ExpectedCommissionUSD (orders_only_of merged))
  == Qsum (map order_share merged).
Proof.
  unfold matches_of, orders_only_of, order_share, is_indicator.
  induction merged as [|r merged IH]; cbn [filter map]; [reflexivity|].
  rewrite Qsum_cons, <- IH.
  destruct (_merge r); cbn [indicator_eqb map]; rewrite ?Qsum_cons; ring.
Qed.

Lemma share_both_rows o cs :
  Qsum (map order_share (map fill (map (both_row o) cs)))
  == times (List.length cs) (Orders.ExpectedCommissionUSD o).
Proof.
  induction cs as [|c cs IH]; cbn [map List.length].
  - unfold times. cbn. ring.
  - rewrite Qsum_cons, IH, times_S. reflexivity.
Qed.

Lemma share_rows_of_order cs o :
  Qsum (map order_share (map fill (rows_of_order cs o)))
  == times (copies cs o) (Orders.ExpectedCommissionUSD o).
Proof.
  unfold rows_of_order, copies.
  destruct (filter (has_key (Orders.key o)) cs) as [|c l].
  - cbn. unfold times. cbn. ring.
  - rewrite share_both_rows.
    replace (Nat.max 1 (List.length (c :: l))) with (List.length (c :: l))
      by (cbn [List.length]; lia).
    reflexivity.
Qed.

Lemma share_right_rows cs :
  Qsum (map order_share (map fill (map right_row cs))) == 0.
Proof.
  induction cs as [|c cs IH]; cbn [map]; [reflexivity|].
  rewrite Qsum_cons, IH. cbn. ring.
Qed.

(** Across [matches] and [orders_only] every order counts once for each of
    its merged rows. *)
Lemma expected_of_orders_with_copies orders commissions :
  let merged := merged_frame orders commissions in
  Qsum (map ExpectedCommissionUSD (matches_of merged))
  + Qsum (map ExpectedCommissionUSD (orders_only_of merged))
  == Qsum (map (fun o => times (copies commissions o)
                               (Orders.ExpectedCommissionUSD o)) orders).
Proof.
  cbv zeta. rewrite sum_matches_orders_only.
  rewrite (Qsum_perm _ _
             (Permutation_map order_share (merged_frame_perm orders commissions))).
  unfold outer_rows. rewrite !map_app, Qsum_app, share_right_rows.
  induction orders as [|o orders IH]; cbn [flat_map map].
  - reflexivity.
  - rewrite !map_app, Qsum_app, Qsum_cons, share_rows_of_order.
    rewrite <- IH. ring.
Qed.

Lemma unique_key_count k commissions :
  NoDup (map Commissions.key commissions) ->
  (List.length (filter (has_key k) commissions) <= 1)%nat.
Proof.
  induction commissions as [|c cs IH]; cbn [map filter]; intros Hnd.
  - cbn. lia.
  - apply NoDup_cons_iff in Hnd as [Hnot Hnd]. specialize (IH Hnd).
    destruct (has_key k c) eqn:Ek; [|exact IH].
    apply has_key_true in Ek. subst k.
    destruct (filter (has_key (Commissions.key c)) cs) as [|c' l] eqn:E.
    + cbn. lia.
    + exfalso. apply Hnot.
      assert (X : In c' (filter (has_key (Commissions.key c)) cs))
        by (rewrite E; left; reflexivity).
      apply filter_In in X as [Hc Hk]. apply has_key_true in Hk.
      rewrite <- Hk. apply in_map, Hc.
Qed.

Lemma filter_all {A} (p : A -> bool) (l : list A) :
  (forall x, In x l -> p x = true) -> filter p l = l.
Proof.
  induction l as [|x l IH]; cbn [filter]; intros H; [reflexivity|].
  rewrite (H x (or_introl eq_refl)), IH; [reflexivity|].
  intros y Hy. apply H. right. exact Hy.
Qed.

Lemma matches_orders_only_perm merged :
  Permutation (matches_of merged ++ orders_only_of merged)
              (filter of_order merged).
Proof.
  unfold matches_of, orders_only_of, of_order, is_indicator.
  induction merged as [|r merged IH]; cbn [filter app]; [constructor|].
  destruct (_merge r); cbn [indicator_eqb negb app].
  - constructor. exact IH.
  - apply Permutation_sym, Permutation_cons_app, Permutation_sym, IH.
  - exact IH.
Qed.

Lemma of_order_rows_of_order cs o :
  (List.length (filter (has_key (Orders.key o)) cs) <= 1)%nat ->
  map ExpectedCommissionUSD (filter of_order (map fill (rows_of_order cs o)))
  = [Orders.ExpectedCommissionUSD o].
Proof.
  unfold rows_of_order. intros Hle.
  destruct (filter (has_key (Orders.key o)) cs) as [|c [|c' l]];
    [reflexivity|reflexivity|cbn [List.length] in Hle; lia].
Qed.

Lemma of_order_flat_map cs orders :
  (forall k, (List.length (filter (has_key k) cs) <= 1)%nat) ->
  map ExpectedCommissionUSD
      (filter of_order (map fill (flat_map (rows_of_order cs) orders)))
  = map Orders.ExpectedCommissionUSD orders.
Proof.
  intros Hle. induction orders as [|o orders IH]; cbn [flat_map map];
    [reflexivity|].
  rewrite map_app, filter_app, map_app, IH, of_order_rows_of_order by apply Hle.
  reflexivity.
Qed.

Lemma of_order_right_rows cs :
  filter of_order (map fill (map right_row cs)) = [].
Proof. induction cs as [|c cs IH]; cbn [map filter]; [reflexivity|exact IH]. Qed.

(** With no two commissions of one key, the rows of [matches] and
    [orders_only] carry the expected amounts of the orders, each order
    once. *)
Lemma orders_once_for_unique_keys orders commissions :
  NoDup (map Commissions.key commissions) ->
  let merged := merged_frame orders commissions in
  Permutation
    (map ExpectedCommissionUSD (matches_of merged ++ orders_only_of merged))
    (map Orders.ExpectedCommissionUSD orders).
Proof.
  intros Hnd merged. subst merged.
  rewrite (Permutation_map ExpectedCommissionUSD
             (matches_orders_only_perm (merged_frame orders commissions))).
  rewrite (Permutation_map ExpectedCommissionUSD
             (filter_perm of_order _ _ (merged_frame_perm orders commissions))).
  unfold outer_rows.
  rewrite map_app, filter_app, of_order_right_rows, app_nil_r.
  rewrite of_order_flat_map; [reflexivity|].
  intros k. apply unique_key_count, Hnd.
Qed.

(** C2, as the code has it. When no two commission rows share a key, every
    order has exactly one row on the sheets [matches] and [orders_only]
    together, with its expected amount unchanged: the expected amounts on the
    rows of the two sheets are those of the orders, and so are their exact
    sums.  The rows of [gaps] are rows of [matches] and add nothing. *)
Theorem expected_conserved_for_unique_commission_keys
  (orders : list Orders.row) (commissions : list Commissions.row)
  (tol : Q) (path : string) :
  NoDup (map Commissions.key commissions) ->
  let out := report (merged_frame orders commissions) tol path in
  Permutation (map ExpectedCommissionUSD (matches out ++ orders_only out))
              (map Orders.ExpectedCommissionUSD orders)
  /\ incl (gaps out) (matches out)
  /\ Qsum (map ExpectedCommissionUSD (matches out))
     + Qsum (map ExpectedCommissionUSD (orders_only out))
     == Qsum (map Orders.ExpectedCommissionUSD orders).
Proof.
  intros Hnd. cbn [report matches gaps orders_only].
  pose proof (orders_once_for_unique_keys orders commissions Hnd) as Hp.
  cbv zeta in Hp. split; [exact Hp|]. split.
  - intros r Hr. apply In_gaps in Hr. tauto.
  - rewrite <- (Qsum_perm _ _ Hp), map_app, Qsum_app. reflexivity.
Qed.

Lemma expected_conserved_for_unique_commission_keys_witness :
  NoDup (map Commissions.key [commission "A" 99])
  /\ (let out := report (merged_frame [order "A" 100; order "B" 50]
                                       [commission "A" 99])
                        (1 # 4) "out.xlsx" in
      Permutation (map ExpectedCommissionUSD (matches out ++ orders_only out))
                  (map Orders.ExpectedCommissionUSD [order "A" 100; order "B" 50])
      /\ map ExpectedCommissionUSD (gaps out) = [100]).
Proof.
  assert (Hnd : NoDup (map Commissions.key [commission "A" 99])).
  { constructor; [intros []|constructor]. }
  split; [exact Hnd|]. cbv zeta. split; [|reflexivity].
  exact (proj1 (expected_conserved_for_unique_commission_keys
                  [order "A" 100; order "B" 50] [commission "A" 99]
                  (1 # 4) "out.xlsx" Hnd)).
Defined.

(** C2, refuted as worded: one order "K" of 10 and two commissions "K" give
    two merged rows, both matches within the tolerance; the expected amounts
    on the three sheets are 10 and 10, those of the orders 10. *)
Lemma duplicate_commission_keys_multiply_expected :
  let orders := [order "K" 10] in
  let out := report (merged_frame orders [commission "K" 10; commission "K" 10])
                    (1 # 4) "out.xlsx" in
  gaps out = [] /\ orders_only out = []
  /\ map ExpectedCommissionUSD (matches out) = [10; 10]
  /\ ~ conserves_expected orders out.
Proof.
  cbv zeta. split; [reflexivity|]. split; [reflexivity|]. split; [reflexivity|].
  intros H. vm_compute in H. discriminate H.
Qed.

(** *** The tolerance *)

Lemma load_with_tolerance t config workbook provider_map :
  load (with_tolerance t config) workbook provider_map
  = load config workbook provider_map.
Proof. reflexivity. Qed.

Lemma main_with_number t config workbook provider_map :
  main (with_tolerance (Some (Number t)) config) workbook provider_map
  = bind (load config workbook provider_map) (fun merged =>
      bind (cfg config ["output_file"]) (fun output_file =>
        Ok (report merged t output_file))).
Proof. reflexivity. Qed.

Lemma main_without_tolerance config workbook provider_map :
  main (with_tolerance None config) workbook provider_map
  = bind (load config workbook provider_map) (fun merged =>
      bind (cfg config ["output_file"]) (fun output_file =>
        Ok (report merged (1 # 4) output_file))).
Proof. reflexivity. Qed.

(** C5, as the code has it. A run without a [tolerance] entry is the run
    with tolerance 0.25.  A number is never rejected as a tolerance, negative
    or not: the run with the number [t] reaches its output exactly when the
    run without a tolerance does, and its sheets are those of the merged
    frame split with [t] itself. *)
Theorem tolerance_default_and_no_rejection
  (config : Config) (workbook : list (string * DataFrame))
  (provider_map : list (string * string)) :
  main (with_tolerance None config) workbook provider_map
  = main (with_tolerance (Some (Number (1 # 4))) config) workbook provider_map
  /\ (forall t,
        (exists out,
            main (with_tolerance (Some (Number t)) config) workbook provider_map
            = Ok out)
        <-> (exists out,
               main (with_tolerance None config) workbook provider_map = Ok out))
  /\ (forall t out,
        main (with_tolerance (Some (Number t)) config) workbook provider_map
        = Ok out ->
        exists merged,
          load config workbook provider_map = Ok merged
          /\ out = report merged t (output_path out)).
Proof.
  split; [reflexivity|]. split.
  - intros t. rewrite main_with_number, main_without_tolerance. unfold bind.
    destruct (load config workbook provider_map) as [merged|e|];
      [|split; intros [out H]; discriminate H..].
    destruct (cfg config ["output_file"]) as [path|e|];
      [|split; intros [out H]; discriminate H..].
    split; intros _; eexists; reflexivity.
  - intros t out. rewrite main_with_number. unfold bind.
    destruct (load config workbook provider_map) as [merged|e|];
      try discriminate.
    destruct (cfg config ["output_file"]) as [path|e|]; try discriminate.
    intros [= <-]. exists merged. split; reflexivity.
Qed.

(** C5, refuted as worded: the run on the sample workbook with tolerance -1
    raises nothing; it reaches its output, with both matched rows on the
    sheet [gaps]. *)
Lemma negative_tolerance_is_accepted :
  ~ rejects_negative_tolerance (sample_config (Some (-1))) sample_workbook []
  /\ exists out,
       main (sample_config (Some (-1))) sample_workbook [] = Ok out
       /\ List.length (matches out) = 2%nat /\ gaps out = matches out.
Proof.
  split.
  - intros H. destruct (H (-1) eq_refl) as [e He]; [reflexivity|].
    vm_compute in He. discriminate He.
  - eexists. split; [vm_compute; reflexivity|]. split; reflexivity.
Qed.

(** *** Missing locators *)

Lemma load_inputs config workbook provider_map i :
  read_inputs config workbook = Ok i ->
  load config workbook provider_map = Ok (merged_of i provider_map).
Proof. unfold load, bind. intros ->. reflexivity. Qed.

(** C9. A missing key cell normalizes to the text "NAN".  So in a run an
    order row and a commission row whose key cells are both missing get the
    key "NAN" and are joined: the merged frame has a row marked [both] with
    that key, the provider and expected amount of the one and the provider
    and billed amount of the other; and no row with the key "NAN" is left
    unmatched. *)
Theorem missing_locators_share_key_NAN
  (config : Config) (workbook : list (string * DataFrame))
  (provider_map : list (string * string)) (i : Inputs) (ro rc : list cell) :
  read_inputs config workbook = Ok i ->
  In ro (rows (orders_df i)) -> In rc (rows (commissions_df i)) ->
  cell_at (orders_df i) (orders_key i) ro = NA ->
  cell_at (commissions_df i) (commissions_key i) rc = NA ->
  let o := order_row (orders_df i) (orders_key i) (orders_commission i)
                     (provider_candidates i) provider_map ro in
  let c := commission_row (commissions_df i) (commissions_key i)
                          (commissions_commission i)
                          (provider_candidates i) provider_map rc in
  normalize_key [NA] = ["NAN"]
  /\ Orders.key o = "NAN" /\ Commissions.key c = "NAN"
  /\ exists merged,
       load config workbook provider_map = Ok merged
       /\ (exists r, In r merged /\ key r = "NAN" /\ _merge r = both
                     /\ provider_orders r = Orders.provider_orders o
                     /\ ExpectedCommissionUSD r = Orders.ExpectedCommissionUSD o
                     /\ provider_commissions r
                        = Commissions.provider_commissions c
                     /\ BilledCommissionUSD r
                        = Commissions.BilledCommissionUSD c)
       /\ (forall r, In r merged -> key r = "NAN" -> _merge r = both).
Proof.
  intros Hi Hro Hrc Hko Hkc o c.
  assert (Eo : Orders.key o = "NAN") by (cbn; rewrite Hko; reflexivity).
  assert (Ec : Commissions.key c = "NAN") by (cbn; rewrite Hkc; reflexivity).
  split; [reflexivity|]. split; [exact Eo|]. split; [exact Ec|].
  exists (merged_of i provider_map). split; [apply load_inputs, Hi|].
  unfold merged_of.
  set (orders := load_orders _ _ _ _ _).
  set (commissions := load_commissions _ _ _ _ _).
  assert (Ho : In o orders) by (apply in_map, Hro).
  assert (Hc : In c commissions) by (apply in_map, Hrc).
  split.
  - exists (fill (both_row o c)). split.
    + apply In_merged_frame. exists (both_row o c). split; [|reflexivity].
      apply In_outer_rows. left. exists o, c. repeat split; trivial. congruence.
    + repeat split; trivial.
  - intros r Hr Hk. apply In_merged_frame in Hr as (m & Hm & ->).
    apply In_outer_rows in Hm
      as [(o' & c' & _ & _ & _ & ->)|[(o' & _ & Hn & ->)|(c' & _ & Hn & ->)]].
    + reflexivity.
    + cbn in Hk. elim (Hn c Hc). congruence.
    + cbn in Hk. elim (Hn o Ho). congruence.
Qed.

Lemma missing_locators_share_key_NAN_witness :
  let ro := [NA; Num 50 "50"; Str "Globex"; NA] in
  let rc := [NA; Str "n/a"] in
  read_inputs (sample_config None) sample_workbook = Ok sample_inputs
  /\ In ro (rows (orders_df sample_inputs))
  /\ In rc (rows (commissions_df sample_inputs))
  /\ cell_at (orders_df sample_inputs) (orders_key sample_inputs) ro = NA
  /\ cell_at (commissions_df sample_inputs) (commissions_key sample_inputs) rc
     = NA
  /\ exists merged,
       load (sample_config None) sample_workbook [] = Ok merged
       /\ (exists r, In r merged /\ key r = "NAN" /\ _merge r = both
                     /\ provider_orders r = Str "Globex"
                     /\ ExpectedCommissionUSD r = 50
                     /\ provider_commissions r = NA
                     /\ BilledCommissionUSD r = 0)
       /\ (forall r, In r merged -> key r = "NAN" -> _merge r = both).
Proof.
  cbv zeta.
  assert (H0 : read_inputs (sample_config None) sample_workbook
               = Ok sample_inputs) by (vm_compute; reflexivity).
  assert (H1 : In [NA; Num 50 "50"; Str "Globex"; NA]
                  (rows (orders_df sample_inputs)))
    by (right; left; reflexivity).
  assert (H2 : In [NA; Str "n/a"] (rows (commissions_df sample_inputs)))
    by (right; left; reflexivity).
  split; [exact H0|]. split; [exact H1|]. split; [exact H2|].
  split; [reflexivity|]. split; [reflexivity|].
  exact (proj2 (proj2 (proj2
    (missing_locators_share_key_NAN
       (sample_config None) sample_workbook [] sample_inputs
       [NA; Num 50 "50"; Str "Globex"; NA] [NA; Str "n/a"]
       H0 H1 H2 eq_refl eq_refl)))).
Defined.

(** *** Providers *)

Lemma ensure_provider_column_none df candidates r :
  (forall c, In c candidates -> has_column (lower c) df = false) ->
  ensure_provider_column df candidates r = NA.
Proof.
  induction candidates as [|c cs IH]; cbn [ensure_provider_column];
    intros H; [reflexivity|].
  rewrite (H c (or_introl eq_refl)). apply IH.
  intros c' Hc'. apply H. right. exact Hc'.
Qed.

Lemma ensure_provider_column_first df skipped c rest r :
  (forall b, In b skipped -> has_column (lower b) df = false) ->
  has_column (lower c) df = true ->
  ensure_provider_column df (skipped ++ c :: rest) r = cell_at df (lower c) r.
Proof.
  induction skipped as [|b bs IH]; cbn [app ensure_provider_column]; intros Hs Hc.
  - rewrite Hc. reflexivity.
  - rewrite (Hs b (or_introl eq_refl)). apply IH; [|exact Hc].
    intros b' Hb'. apply Hs. right. exact Hb'.
Qed.

(** C6, as the code has it. The provider column is chosen once for a whole
    sheet: it is the first candidate, in priority order and lowercased, that
    names a column of the sheet, whatever the cells of that column hold; a
    row's raw provider is its cell in that column, a missing cell included,
    and every row's provider is missing when no candidate names a column.
    The alias map replaces a text cell that is one of its keys and keeps
    every other cell.  A merged row takes the order-side provider unless it
    is missing, then the commission-side provider unless it is missing, then
    "Unassigned". *)
Theorem provider_column_chosen_per_sheet
  (df : DataFrame) (skipped rest : list string) (c : string)
  (aliasMap : list (string * string)) (r : list cell) :
  (forall b, In b skipped -> has_column (lower b) df = false) ->
  has_column (lower c) df = true ->
  ensure_provider_column df (skipped ++ c :: rest) r = cell_at df (lower c) r
  /\ (forall candidates,
        (forall c', In c' candidates -> has_column (lower c') df = false) ->
        ensure_provider_column df candidates r = NA)
  /\ (forall s, replace aliasMap (Str s) = Str (fillna s (lookup s aliasMap)))
  /\ replace aliasMap NA = NA
  /\ (forall q repr, replace aliasMap (Num q repr) = Num q repr)
  /\ (forall m,
        provider_orders (fill m) = Merge.provider_orders m
        /\ provider_commissions (fill m) = Merge.provider_commissions m
        /\ Provider (fill m)
           = match Merge.provider_orders m, Merge.provider_commissions m with
             | NA, NA => Str "Unassigned"
             | NA, commission_side => commission_side
             | order_side, _ => order_side
             end).
Proof.
  intros Hs Hc.
  split; [apply ensure_provider_column_first; assumption|].
  split; [intros candidates; apply ensure_provider_column_none|].
  split; [intros s; cbn [replace]; destruct (lookup s aliasMap); reflexivity|].
  split; [reflexivity|]. split; [reflexivity|].
  intros m. split; [reflexivity|]. split; [reflexivity|].
  cbn [fill Provider].
  destruct (Merge.provider_orders m), (Merge.provider_commissions m); reflexivity.
Qed.

Lemma provider_column_chosen_per_sheet_witness :
  let df := clean_columns sample_orders_sheet in
  (forall b, In b ["vendor"] -> has_column (lower b) df = false)
  /\ has_column (lower "Provider") df = true
  /\ ensure_provider_column df (["vendor"] ++ "Provider" :: ["supplier"])
       [Str " abc-123 "; Num 100 "100"; NA; Str "Acme"] = NA
  /\ ensure_provider_column df (["vendor"] ++ "Provider" :: ["supplier"])
       [NA; Num 50 "50"; Str "Globex"; NA] = Str "Globex".
Proof.
  cbv zeta.
  assert (H1 : forall b, In b ["vendor"] ->
                 has_column (lower b) (clean_columns sample_orders_sheet) = false).
  { intros b [<-|[]]. reflexivity. }
  split; [exact H1|]. split; [reflexivity|]. split.
  - exact (proj1 (provider_column_chosen_per_sheet
                    (clean_columns sample_orders_sheet) ["vendor"] ["supplier"]
                    "Provider" [] [Str " abc-123 "; Num 100 "100"; NA; Str "Acme"]
                    H1 eq_refl)).
  - exact (proj1 (provider_column_chosen_per_sheet
                    (clean_columns sample_orders_sheet) ["vendor"] ["supplier"]
                    "Provider" [] [NA; Num 50 "50"; Str "Globex"; NA]
                    H1 eq_refl)).
Defined.

(** C6, refuted as worded: the first order of the sample workbook has an
    empty "Provider" cell and "Acme" in its "Supplier" cell.  The resolver of
    the specification gives "Acme"; the script reads the column "provider"
    for every row, and the merged row of that order is "Unassigned". *)
Lemma empty_provider_cell_does_not_fall_back :
  ~ resolves_per_record (clean_columns sample_orders_sheet)
      default_provider_cols []
  /\ resolve_spec (clean_columns sample_orders_sheet)
       [Str " abc-123 "; Num 100 "100"; NA; Str "Acme"]
       default_provider_cols [] = "Acme"
  /\ exists out,
       main (sample_config None) sample_workbook [] = Ok out
       /\ In sample_pair (matches out)
       /\ Provider sample_pair = Str "Unassigned".
Proof.
  split; [|split; [reflexivity|]].
  - intros H.
    specialize (H [Str " abc-123 "; Num 100 "100"; NA; Str "Acme"]
                  (or_introl eq_refl)).
    vm_compute in H. discriminate H.
  - eexists. split; [vm_compute; reflexivity|].
    split; [left; reflexivity|reflexivity].
Qed.

End ReconciliationFacts.

(** ** [combine_commissions.py] *)

Module CombineCommissionsFacts.
Import Pandas PandasFacts CombineCommissions.

Local Open Scope Q_scope.

(** The sample export, whatever pandas' sum is: the groups, and the values
    that each of them adds up. *)
Example grouped_sample_export (series_sum : list Q -> Q) :
  grouped series_sum sample_export
  = [("Aaa", "L1", series_sum [1]); ("Acme", "L0", series_sum [7]);
     ("Acme", "L1", series_sum [10; 0])]
  /\ orig_totals series_sum sample_export
     = [("L0", series_sum [7]); ("L1", series_sum [10; 5; 0; 1])]
  /\ grouped_totals series_sum (grouped series_sum sample_export)
     = [("L0", series_sum [series_sum [7]]);
        ("L1", series_sum [series_sum [1]; series_sum [10; 0]])].
Proof. repeat split; vm_compute; reflexivity. Qed.

Lemma pair_eqb_eq (a b : string * string) : pair_eqb a b = true -> a = b.
Proof.
  destruct a as [p l], b as [p' l']. unfold pair_eqb. cbn [fst snd].
  intros H. apply andb_true_iff in H as [Hp Hl].
  apply String.eqb_eq in Hp, Hl. congruence.
Qed.

Lemma string_eqb_eq (a b : string) : String.eqb a b = true -> a = b.
Proof. apply String.eqb_eq. Qed.

(** C10, refuted as worded: a single raw row with locator "L1", value 10
    and no Provider is in no group; the grouped file is empty, so its rows of
    "L1" add up to 0, whatever way sums are computed, and the raw rows to 10;
    the validation lists "L1" as missing after grouping. *)
Lemma row_without_provider_is_dropped :
  let df := [ {| Provider := None; BookingLocator := Some "L1";
                 BilledCommissionUSD := Num 10 "10" |} ] in
  grouped Qsum df = []
  /\ ~ preserves_locator_totals Qsum df
  /\ map Locator
       (missing_after_group
          (comparison (orig_totals Qsum df)
                      (grouped_totals Qsum (grouped Qsum df))))
     = ["L1"].
Proof.
  cbv zeta. split; [reflexivity|]. split; [|reflexivity].
  intros H. specialize (H "L1"). vm_compute in H. discriminate H.
Qed.

End CombineCommissionsFacts.

(** ** [sale_orders_cleaning.py] *)

Module SaleOrdersCleaningFacts.
Import Text Pandas SaleOrdersCleaning TextFacts.

Lemma allowed_not_space c : allowed c = true -> is_space c = false.
Proof.
  destruct c as [[] [] [] [] [] [] [] []]; vm_compute; congruence.
Qed.

Lemma allowed_not_newline c : allowed c = true -> is_newline c = false.
Proof.
  destruct c as [[] [] [] [] [] [] [] []]; vm_compute; congruence.
Qed.

Lemma sall_sfilter p s : sall p (sfilter p s) = true.
Proof.
  induction s as [|c s IH]; cbn [sfilter sall]; [reflexivity|].
  destruct (p c) eqn:E; cbn [sall]; [rewrite E|]; exact IH.
Qed.

Lemma collapse_allowed b s : sall allowed s = true -> collapse_spaces b s = s.
Proof.
  revert b. induction s as [|c s IH]; intros b; cbn [sall collapse_spaces];
    [reflexivity|].
  intros H. apply andb_true_iff in H as [Hc Hs].
  rewrite (allowed_not_space c Hc), (IH false Hs). reflexivity.
Qed.

Lemma lstrip_allowed s : sall allowed s = true -> lstrip s = s.
Proof.
  destruct s as [|c s]; cbn [sall lstrip]; [reflexivity|].
  intros H. apply andb_true_iff in H as [Hc _].
  rewrite (allowed_not_space c Hc). reflexivity.
Qed.

Lemma rstrip_allowed s : sall allowed s = true -> rstrip s = s.
Proof.
  induction s as [|c s IH]; cbn [sall rstrip]; [reflexivity|].
  intros H. apply andb_true_iff in H as [Hc Hs].
  rewrite (IH Hs). destruct s; [|reflexivity].
  rewrite (allowed_not_space c Hc). reflexivity.
Qed.

Lemma strip_allowed s : sall allowed s = true -> strip s = s.
Proof.
  intros H. unfold strip. rewrite (lstrip_allowed s H). apply rstrip_allowed, H.
Qed.

Lemma no_final_newline s :
  sall allowed s = true -> before_final_newline s = None.
Proof.
  induction s as [|c s IH]; cbn [sall]; [reflexivity|].
  intros H. apply andb_true_iff in H as [Hc Hs].
  destruct s as [|d s].
  - cbn. rewrite (allowed_not_newline c Hc). reflexivity.
  - change (before_final_newline (String c (String d s)))
      with (option_map (String c) (before_final_newline (String d s))).
    rewrite (IH Hs). reflexivity.
Qed.

Lemma clean_confirmation_text value :
  clean_confirmation value
  = if isna value then None
    else if String.eqb (cleaned_text value) EmptyString then None
         else Some (cleaned_text value).
Proof.
  unfold clean_confirmation, cleaned_text. destruct (isna value); [reflexivity|].
  cbv zeta.
  set (t := remove_not_allowed _).
  assert (Ht : sall allowed t = true) by apply sall_sfilter.
  rewrite (collapse_allowed false t Ht), (strip_allowed t Ht). reflexivity.
Qed.

Lemma clean_confirmation_some value text :
  clean_confirmation value = Some text ->
  text <> EmptyString /\ sall allowed text = true
  /\ allowed_pattern_match text = true.
Proof.
  rewrite clean_confirmation_text. destruct (isna value); [discriminate|].
  destruct (String.eqb (cleaned_text value) EmptyString) eqn:E; [discriminate|].
  intros [= <-].
  assert (Ht : sall allowed (cleaned_text value) = true) by apply sall_sfilter.
  split; [intros H; rewrite H in E; discriminate|]. split; [exact Ht|].
  unfold allowed_pattern_match. rewrite (no_final_newline _ Ht), E, Ht. reflexivity.
Qed.

(** X15. Every value that the cleaning keeps is a non-empty text made of
    letters, digits and hyphens only, so the pattern of line 35 matches all
    of them and the list of rows with unexpected characters is empty for
    every input column; the white-space collapse of line 24 never changes
    the text, which is already free of white space. *)
Theorem cleaned_confirmations_always_valid (column : list cell) :
  invalid_rows column = []
  /\ Forall (fun text => text <> EmptyString /\ sall allowed text = true)
            (cleaned column)
  /\ (List.length (cleaned column) <= List.length column)%nat
  /\ (forall value,
        clean_confirmation value
        = if isna value then None
          else if String.eqb (cleaned_text value) EmptyString then None
               else Some (cleaned_text value)).
Proof.
  split; [|split; [|split; [|apply clean_confirmation_text]]].
  - unfold invalid_rows.
    induction column as [|v column IH]; cbn [cleaned filter]; [reflexivity|].
    destruct (clean_confirmation v) as [text|] eqn:E; [|exact IH].
    apply clean_confirmation_some in E as (_ & _ & E).
    cbn [filter]. rewrite E. exact IH.
  - induction column as [|v column IH]; cbn [cleaned]; [constructor|].
    destruct (clean_confirmation v) as [text|] eqn:E; [|exact IH].
    apply clean_confirmation_some in E as (E1 & E2 & _).
    constructor; [split; assumption|exact IH].
  - induction column as [|v column IH]; cbn [cleaned List.length]; [lia|].
    destruct (clean_confirmation v); cbn [List.length]; lia.
Qed.

Example clean_confirmation_samples :
  clean_confirmation (Str "  AB-12,3 --") = Some "AB-123"%string
  /\ clean_confirmation (Str "AB-#") = Some "AB-"%string
  /\ clean_confirmation (Str " , -") = None
  /\ clean_confirmation NA = None.
Proof. repeat split; reflexivity. Qed.

End SaleOrdersCleaningFacts.

(** ** Grouping and sorting *)

Module GroupingFacts.
Import Pandas PandasFacts Ordering.

Local Open Scope Q_scope.

Section SortedFacts.
Context {A : Type} (before : A -> A -> bool).
Hypothesis before_asym : forall a b, before a b = true -> before b a = false.

Lemma insert_sorted x l :
  Sorted (in_order before) l -> Sorted (in_order before) (insert before x l).
Proof.
  induction 1 as [|y l Hs IH Hd]; cbn [insert].
  - repeat constructor.
  - destruct (before y x) eqn:E.
    + constructor; [exact IH|].
      destruct l as [|z l]; cbn [insert].
      * constructor. apply before_asym, E.
      * destruct (before z x); constructor.
        -- inversion Hd; assumption.
        -- apply before_asym, E.
    + constructor; [constructor; assumption|]. constructor. exact E.
Qed.

Lemma sort_sorted l : Sorted (in_order before) (sort before l).
Proof.
  induction l as [|x l IH]; cbn [sort fold_right]; [constructor|].
  apply insert_sorted, IH.
Qed.

End SortedFacts.

Section GroupKeys.
Context {K : Type} (same before : K -> K -> bool).
Hypothesis same_eq : forall a b, same a b = true <-> a = b.

Lemma same_refl k : same k k = true.
Proof. apply same_eq. reflexivity. Qed.

Lemma same_false a b : a <> b -> same a b = false.
Proof.
  intros H. destruct (same a b) eqn:E; [|reflexivity].
  apply same_eq in E. elim (H E).
Qed.

Lemma add_to_group_keys k v groups :
  map fst (add_to_group same k v groups)
  = if existsb (fun g => same (fst g) k) groups then map fst groups
    else (map fst groups ++ [k])%list.
Proof.
  induction groups as [|[k' t] groups IH]; cbn [add_to_group existsb map fst];
    [reflexivity|].
  destruct (same k' k); cbn [orb map fst]; [reflexivity|].
  rewrite IH. destruct (existsb _ groups); reflexivity.
Qed.

Lemma existsb_same_In k (groups : list (K * list Q)) :
  existsb (fun g => same (fst g) k) groups = true <-> In k (map fst groups).
Proof.
  rewrite existsb_exists, in_map_iff. split.
  - intros (g & Hg & E). apply same_eq in E. exists g. auto.
  - intros (g & E & Hg). exists g. split; [exact Hg|]. apply same_eq, E.
Qed.

Lemma add_to_group_NoDup k v groups :
  NoDup (map fst groups) -> NoDup (map fst (add_to_group same k v groups)).
Proof.
  intros H. rewrite add_to_group_keys.
  destruct (existsb _ groups) eqn:E; [exact H|].
  apply NoDup_app; [exact H|repeat constructor; intros []|].
  intros x Hx [E'|[]]. subst x. apply existsb_same_In in Hx. congruence.
Qed.

Lemma add_to_group_In k v groups x :
  In x (map fst (add_to_group same k v groups))
  <-> In x (map fst groups) \/ x = k.
Proof.
  rewrite add_to_group_keys. destruct (existsb _ groups) eqn:E.
  - apply existsb_same_In in E. split; [auto|]. intros [H|E']; [|subst x]; assumption.
  - rewrite in_app_iff. cbn [In]. split.
    + intros [H|[H|[]]]; auto.
    + intros [H|H]; auto.
Qed.

Lemma fold_accumulate_keys rows groups :
  NoDup (map fst groups) ->
  NoDup (map fst (fold_left (accumulate same) rows groups))
  /\ forall x, In x (map fst (fold_left (accumulate same) rows groups))
               <-> In x (map fst groups) \/ In (Some x) (map fst rows).
Proof.
  revert groups. induction rows as [|[[k|] v] rows IH]; intros groups Hnd;
    cbn [fold_left map fst In].
  - split; [exact Hnd|]. intros x. tauto.
  - unfold accumulate at 2 4. cbn [fst snd].
    destruct (IH _ (add_to_group_NoDup k v groups Hnd)) as [H1 H2].
    split; [exact H1|]. intros x. rewrite H2, add_to_group_In.
    split.
    + intros [[H|E']|H]; [auto|subst x; auto|auto].
    + intros [H|[E'|H]]; [auto|injection E' as E'; auto|auto].
  - unfold accumulate at 2 4. cbn [fst snd].
    destruct (IH _ Hnd) as [H1 H2]. split; [exact H1|].
    intros x. rewrite H2. split.
    + intros [H|H]; auto.
    + intros [H|[E'|H]]; [auto|discriminate E'|auto].
Qed.

(** The keys of the groups: each key once, and exactly the keys that some
    row carries. *)
Lemma groups_of_keys rows :
  NoDup (map fst (groups_of same before rows))
  /\ forall x, In x (map fst (groups_of same before rows))
               <-> In (Some x) (map fst rows).
Proof.
  unfold groups_of.
  destruct (fold_accumulate_keys rows [] (NoDup_nil _)) as [H1 H2].
  pose proof (Permutation_map fst
                (sort_perm (fun g h : K * list Q => before (fst g) (fst h))
                           (fold_left (accumulate same) rows []))) as P.
  split.
  - apply (Permutation_NoDup (Permutation_sym P)), H1.
  - intros x. split.
    + intros H. apply (Permutation_in _ P) in H. apply H2 in H as [[]|H]. exact H.
    + intros H. apply (Permutation_in _ (Permutation_sym P)), H2. right. exact H.
Qed.

Lemma groupby_sum_keys series_sum rows :
  NoDup (map fst (groupby_sum same before series_sum rows))
  /\ forall x, In x (map fst (groupby_sum same before series_sum rows))
               <-> In (Some x) (map fst rows).
Proof.
  unfold groupby_sum. rewrite map_map. cbn [fst].
  apply groups_of_keys.
Qed.

(** The values of a group are the values of the rows with its key, in the
    order of the rows. *)

Lemma values_of_cons k r rows :
  values_of same k (r :: rows)
  = match fst r with
    | Some k' => if same k' k then snd r :: values_of same k rows
                 else values_of same k rows
    | None => values_of same k rows
    end.
Proof.
  unfold values_of. cbn [filter].
  destruct (fst r) as [k'|]; [|reflexivity].
  destruct (same k' k); reflexivity.
Qed.

Lemma In_add_to_group k v groups x vs :
  NoDup (map fst groups) ->
  In (x, vs) (add_to_group same k v groups) ->
  (x <> k /\ In (x, vs) groups)
  \/ (x = k /\ ((exists vs0, In (k, vs0) groups /\ vs = (vs0 ++ [v])%list)
                \/ (~ In k (map fst groups) /\ vs = [v]))).
Proof.
  induction groups as [|[k' vs'] groups IH]; cbn [add_to_group map fst];
    intros Hnd Hin.
  - destruct Hin as [[= <- <-]|[]]. right. split; [reflexivity|].
    right. split; [intros []|reflexivity].
  - apply NoDup_cons_iff in Hnd as [Hnot Hnd].
    destruct (same k' k) eqn:E.
    + apply same_eq in E. subst k'. destruct Hin as [[= <- <-]|Hin].
      * right. split; [reflexivity|]. left. exists vs'.
        split; [left; reflexivity|reflexivity].
      * left. split; [|right; exact Hin].
        intros ->. apply Hnot. apply (in_map fst) in Hin. exact Hin.
    + assert (Hne : k' <> k)
        by (intros ->; rewrite same_refl in E; discriminate).
      destruct Hin as [[= <- <-]|Hin].
      * left. split; [exact Hne|left; reflexivity].
      * destruct (IH Hnd Hin) as [[Hx H]|[Hx [(vs0 & H & Ev)|[H Ev]]]].
        -- left. split; [exact Hx|right; exact H].
        -- right. split; [exact Hx|]. left. exists vs0.
           split; [right; exact H|exact Ev].
        -- right. split; [exact Hx|]. right. split; [|exact Ev].
           cbn [In]. intros [X|X]; [elim (Hne X)|elim (H X)].
Qed.

Lemma fold_accumulate_values rows :
  forall groups x vs,
    NoDup (map fst groups) ->
    In (x, vs) (fold_left (accumulate same) rows groups) ->
    (exists vs0, In (x, vs0) groups
                 /\ vs = (vs0 ++ values_of same x rows)%list)
    \/ (~ In x (map fst groups) /\ vs = values_of same x rows).
Proof.
  induction rows as [|[[k|] v] rows IH]; intros groups x vs Hnd Hin;
    cbn [fold_left] in Hin.
  - left. exists vs. split; [exact Hin|]. cbn. rewrite app_nil_r. reflexivity.
  - unfold accumulate at 2 in Hin. cbn [fst snd] in Hin.
    rewrite values_of_cons. cbn [fst snd].
    destruct (IH _ x vs (add_to_group_NoDup k v groups Hnd) Hin)
      as [(vs0 & H0 & Ev)|[Hnot Ev]].
    + destruct (In_add_to_group k v groups x vs0 Hnd H0)
        as [[Hx H]|[Hx [(vs1 & H & E1)|[H E1]]]].
      * rewrite (same_false k x) by congruence.
        left. exists vs0. auto.
      * subst x vs0. rewrite same_refl. left. exists vs1.
        split; [exact H|]. rewrite Ev, <- app_assoc. reflexivity.
      * subst x vs0. rewrite same_refl. right. split; [exact H|exact Ev].
    + assert (Hx : ~ In x (map fst groups) /\ x <> k).
      { split; intros X; apply Hnot, add_to_group_In; auto. }
      destruct Hx as [Hx Hk]. rewrite (same_false k x) by congruence.
      right. auto.
  - unfold accumulate at 2 in Hin. cbn [fst snd] in Hin.
    rewrite values_of_cons. cbn [fst]. apply IH; assumption.
Qed.

Lemma groups_of_values rows x vs :
  In (x, vs) (groups_of same before rows) -> vs = values_of same x rows.
Proof.
  unfold groups_of. intros H. apply In_sort in H.
  destruct (fold_accumulate_values rows [] x vs (NoDup_nil _) H)
    as [(vs0 & [] & _)|[_ E]].
  exact E.
Qed.

Lemma groupby_sum_values series_sum rows x v :
  In (x, v) (groupby_sum same before series_sum rows) ->
  v = series_sum (values_of same x rows).
Proof.
  unfold groupby_sum. intros H. apply in_map_iff in H as ([k vs] & E & H).
  cbn [fst snd] in E. injection E as E1 E2. subst k v.
  rewrite (groups_of_values rows x vs H). reflexivity.
Qed.

End GroupKeys.

End GroupingFacts.

(** ** [combine_commissions.py]: the grouped file and the validation *)

Module ValidationFacts.
Import Pandas PandasFacts Ordering GroupingFacts CombineCommissions
       CombineCommissionsFacts Validation.

Local Open Scope Q_scope.

Lemma ltb_compare a b : String.ltb a b = true <-> String.compare a b = Lt.
Proof.
  unfold String.ltb. destruct (String.compare a b); split; congruence.
Qed.

Lemma ltb_asym a b : String.ltb a b = true -> String.ltb b a = false.
Proof.
  intros H. apply ltb_compare in H. unfold String.ltb.
  rewrite String.compare_antisym, H. reflexivity.
Qed.

Lemma ltb_total a b : String.ltb b a = false -> a <> b -> String.ltb a b = true.
Proof.
  intros H Hne. apply ltb_compare. rewrite String.compare_antisym.
  unfold String.ltb in H. destruct (String.compare b a) eqn:E.
  - apply String.compare_eq_iff in E. congruence.
  - discriminate.
  - reflexivity.
Qed.

Lemma ltb_irrefl a : String.ltb a a = false.
Proof.
  destruct (String.ltb a a) eqn:E; [|reflexivity].
  pose proof (ltb_asym a a E). congruence.
Qed.

Lemma pair_eqb_iff (a b : string * string) : pair_eqb a b = true <-> a = b.
Proof.
  split; [apply pair_eqb_eq|]. intros <-. unfold pair_eqb.
  rewrite !String.eqb_refl. reflexivity.
Qed.

Lemma pair_ltb_asym a b : pair_ltb a b = true -> pair_ltb b a = false.
Proof.
  destruct a as [p l], b as [p' l']. unfold pair_ltb. cbn [fst snd].
  intros H. apply orb_true_iff in H as [H|H].
  - rewrite (ltb_asym _ _ H). cbn [orb].
    destruct (String.eqb p' p) eqn:E; [|reflexivity].
    apply String.eqb_eq in E. subst p'. rewrite ltb_irrefl in H. discriminate.
  - apply andb_true_iff in H as [E H]. apply String.eqb_eq in E. subst p'.
    rewrite ltb_irrefl, String.eqb_refl, (ltb_asym _ _ H). reflexivity.
Qed.

Lemma pair_ltb_total a b : pair_ltb b a = false -> a <> b -> pair_ltb a b = true.
Proof.
  destruct a as [p l], b as [p' l']. unfold pair_ltb. cbn [fst snd].
  intros H Hne. apply orb_false_iff in H as [H1 H2].
  destruct (String.eqb p p') eqn:E.
  - apply String.eqb_eq in E. subst p'. rewrite String.eqb_refl in H2.
    cbn [andb] in H2. rewrite (ltb_total l l' H2); [apply orb_true_r|].
    congruence.
  - rewrite (ltb_total p p' H1); [reflexivity|].
    intros ->. rewrite String.eqb_refl in E. discriminate.
Qed.

Lemma sorted_strict {V} (l : list ((string * string) * V)) :
  Sorted (in_order (fun g h => pair_ltb (fst g) (fst h))) l ->
  NoDup (map fst l) ->
  Sorted (fun g h => pair_ltb (fst g) (fst h) = true) l.
Proof.
  induction 1 as [|g l Hs IH Hd]; cbn [map]; intros Hnd; [constructor|].
  apply NoDup_cons_iff in Hnd as [Hnot Hnd].
  constructor; [apply IH, Hnd|].
  destruct Hd as [|h l Hgh]; constructor.
  apply pair_ltb_total; [exact Hgh|].
  intros E. apply Hnot. rewrite E. left. reflexivity.
Qed.

Lemma string_eqb_iff (a b : string) : String.eqb a b = true <-> a = b.
Proof. apply String.eqb_eq. Qed.

Section Sums.
Variable series_sum : list Q -> Q.

Lemma grouped_keys_perm df :
  Permutation (map fst (grouped series_sum df))
    (map fst (groupby_sum pair_eqb pair_ltb series_sum
                (map (fun r => (provider_locator r, value r)) df))).
Proof. unfold grouped. apply Permutation_map, sort_perm. Qed.

Lemma In_provider_locator df p l :
  In (Some (p, l)) (map fst (map (fun r => (provider_locator r, value r)) df))
  <-> exists r, In r df /\ Provider r = Some p /\ BookingLocator r = Some l.
Proof.
  rewrite map_map, in_map_iff. cbn [fst]. unfold provider_locator. split.
  - intros (r & E & Hr). exists r. split; [exact Hr|].
    destruct (Provider r), (BookingLocator r); try discriminate.
    injection E as -> ->. auto.
  - intros (r & Hr & E1 & E2). exists r. rewrite E1, E2. auto.
Qed.

Lemma grouped_NoDup df : NoDup (map fst (grouped series_sum df)).
Proof.
  apply (Permutation_NoDup (Permutation_sym (grouped_keys_perm df))).
  apply (groupby_sum_keys pair_eqb pair_ltb pair_eqb_iff series_sum).
Qed.

Lemma In_grouped_keys df p l :
  In (p, l) (map fst (grouped series_sum df))
  <-> exists r, In r df /\ Provider r = Some p /\ BookingLocator r = Some l.
Proof.
  rewrite <- In_provider_locator.
  rewrite <- (proj2 (groupby_sum_keys pair_eqb pair_ltb pair_eqb_iff series_sum _) (p, l)).
  split; apply Permutation_in;
    [apply grouped_keys_perm|apply Permutation_sym, grouped_keys_perm].
Qed.

(** X10. The grouped file has exactly one row for every pair of provider and
    locator that some raw row carries with both present, and no other row;
    its rows are in strictly increasing order of provider, then locator. *)
Theorem grouped_one_sorted_row_per_pair (df : list Row) :
  NoDup (map fst (grouped series_sum df))
  /\ (forall p l,
        In (p, l) (map fst (grouped series_sum df))
        <-> exists r, In r df /\ Provider r = Some p /\ BookingLocator r = Some l)
  /\ Sorted (fun g h => pair_ltb (fst g) (fst h) = true) (grouped series_sum df).
Proof.
  split; [apply grouped_NoDup|]. split; [intros p l; apply In_grouped_keys|].
  apply sorted_strict; [|apply grouped_NoDup].
  unfold grouped. apply (sort_sorted (fun g h : string * string * Q =>
                                        pair_ltb (fst g) (fst h))).
  intros a b. apply pair_ltb_asym.
Qed.

Lemma with_locator_true locator r :
  with_locator locator r = true <-> BookingLocator r = Some locator.
Proof.
  unfold with_locator. destruct (BookingLocator r) as [l|].
  - rewrite String.eqb_eq. split; congruence.
  - split; discriminate.
Qed.

Lemma orig_totals_keys df locator :
  In locator (map fst (orig_totals series_sum df))
  <-> exists r, In r df /\ BookingLocator r = Some locator.
Proof.
  unfold orig_totals.
  rewrite (proj2 (groupby_sum_keys String.eqb String.ltb string_eqb_iff series_sum _) locator).
  rewrite map_map, in_map_iff. cbn [fst]. split.
  - intros (r & E & Hr). exists r. auto.
  - intros (r & Hr & E). exists r. auto.
Qed.

Lemma grouped_totals_keys df locator :
  In locator (map fst (grouped_totals series_sum (grouped series_sum df)))
  <-> exists r, In r df /\ BookingLocator r = Some locator
                /\ with_provider r = true.
Proof.
  unfold grouped_totals.
  rewrite (proj2 (groupby_sum_keys String.eqb String.ltb string_eqb_iff series_sum _) locator).
  rewrite map_map, in_map_iff. cbn [fst]. split.
  - intros ([[p l] v] & E & Hg). cbn [fst snd] in E. injection E as ->.
    assert (Hk : In (p, locator) (map fst (grouped series_sum df)))
      by (apply in_map_iff; exists ((p, locator), v); auto).
    apply In_grouped_keys in Hk as (r & Hr & E1 & E2).
    exists r. unfold with_provider. rewrite E1. auto.
  - intros (r & Hr & E & Hp). unfold with_provider in Hp.
    destruct (Provider r) as [p|] eqn:Ep; [|discriminate].
    assert (Hk : In (p, locator) (map fst (grouped series_sum df)))
      by (apply In_grouped_keys; exists r; auto).
    apply in_map_iff in Hk as (g & Eg & Hg). exists g. rewrite Eg. auto.
Qed.

Lemma lookup_None {V} k (d : list (string * V)) :
  lookup k d = None <-> ~ In k (map fst d).
Proof.
  induction d as [|[k' v] d IH]; cbn [lookup map fst In]; [tauto|].
  destruct (String.eqb k' k) eqn:E.
  - apply String.eqb_eq in E. split; [discriminate|]. intros H. elim H. auto.
  - rewrite IH. split.
    + intros H [X|X]; [|auto]. subst k'. rewrite String.eqb_refl in E. discriminate.
    + intros H X. apply H. auto.
Qed.

Lemma existsb_key_In {V} k (d : list (string * V)) :
  existsb (fun o => String.eqb (fst o) k) d = true <-> In k (map fst d).
Proof.
  rewrite existsb_exists, in_map_iff. split.
  - intros (o & Ho & E). apply String.eqb_eq in E. exists o. auto.
  - intros (o & E & Ho). exists o. split; [exact Ho|]. apply String.eqb_eq, E.
Qed.

Lemma filter_none {A} (p : A -> bool) (l : list A) :
  (forall x, In x l -> p x = false) -> filter p l = [].
Proof.
  induction l as [|x l IH]; cbn [filter]; intros H; [reflexivity|].
  rewrite (H x (or_introl eq_refl)). apply IH.
  intros y Hy. apply H. right. exact Hy.
Qed.

(** The rows of the comparison, before they are ordered. *)
Lemma In_comparison orig grp c :
  In c (comparison orig grp)
  <-> (exists o, In o orig
                 /\ c = {| Locator := fst o; OriginalValue := Some (snd o);
                           GroupedValue := lookup (fst o) grp |})
      \/ (exists g, In g grp /\ ~ In (fst g) (map fst orig)
                    /\ c = {| Locator := fst g; OriginalValue := None;
                              GroupedValue := Some (snd g) |}).
Proof.
  unfold comparison. rewrite In_sort, in_app_iff, !in_map_iff. split.
  - intros [(o & <- & Ho)|(g & <- & Hg)].
    + left. exists o. auto.
    + right. apply filter_In in Hg as [Hg Hn]. exists g. split; [exact Hg|].
      split; [|reflexivity]. intros X. apply existsb_key_In in X.
      rewrite X in Hn. discriminate.
  - intros [(o & Ho & ->)|(g & Hg & Hn & ->)].
    + left. exists o. auto.
    + right. exists g. split; [reflexivity|]. apply filter_In. split; [exact Hg|].
      destruct (existsb _ orig) eqn:E; [|reflexivity].
      apply existsb_key_In in E. elim (Hn E).
Qed.

(** X12. The validation never finds a locator that only the grouped file
    has: every locator of the grouped file is a locator of the raw file, so
    the list behind "Unexpected new locators" is empty for every input, and
    every row of the comparison carries a raw total. *)
Theorem no_new_locator_after_group (df : list Row) :
  new_after_group (validation series_sum df) = []
  /\ (forall locator,
        In locator (map fst (grouped_totals series_sum (grouped series_sum df))) ->
        In locator (map fst (orig_totals series_sum df)))
  /\ Forall (fun c => OriginalValue c <> None) (validation series_sum df).
Proof.
  assert (Hsub : forall locator,
             In locator (map fst (grouped_totals series_sum (grouped series_sum df))) ->
             In locator (map fst (orig_totals series_sum df))).
  { intros locator H. apply grouped_totals_keys in H as (r & Hr & E & _).
    apply orig_totals_keys. exists r. auto. }
  assert (Hall : Forall (fun c => OriginalValue c <> None) (validation series_sum df)).
  { apply Forall_forall. intros c Hc. unfold validation in Hc.
    apply In_comparison in Hc as [(o & _ & ->)|(g & Hg & Hn & _)].
    - discriminate.
    - elim Hn. apply Hsub. apply in_map, Hg. }
  split; [|split; assumption].
  unfold new_after_group. apply filter_none. intros c Hc.
  pose proof (proj1 (Forall_forall _ _) Hall c Hc) as H. cbv beta in H.
  destruct (OriginalValue c); [reflexivity|elim H; reflexivity].
Qed.

(** X13. A locator is reported as missing after grouping exactly when the
    raw file has rows with it and none of them has a Provider. *)
Theorem missing_after_group_iff_no_provider (df : list Row) (locator : string) :
  In locator (map Locator (missing_after_group (validation series_sum df)))
  <-> (exists r, In r df /\ with_locator locator r = true)
      /\ (forall r, In r df -> with_locator locator r = true ->
                    with_provider r = false).
Proof.
  unfold missing_after_group, validation. rewrite in_map_iff. split.
  - intros (c & <- & Hc). apply filter_In in Hc as [Hc Hm].
    apply In_comparison in Hc as [(o & Ho & ->)|(g & _ & _ & ->)];
      cbn [OriginalValue GroupedValue Locator] in *; [|discriminate].
    destruct (lookup (fst o) (grouped_totals series_sum (grouped series_sum df))) eqn:E; [discriminate|].
    apply lookup_None in E. split.
    + assert (Hk : In (fst o) (map fst (orig_totals series_sum df))) by (apply in_map, Ho).
      apply orig_totals_keys in Hk as (r & Hr & El). exists r.
      split; [exact Hr|apply with_locator_true, El].
    + intros r Hr Hl. apply with_locator_true in Hl.
      destruct (with_provider r) eqn:Ep; [|reflexivity].
      elim E. apply grouped_totals_keys. exists r. auto.
  - intros [(r & Hr & Hl) Hnone]. apply with_locator_true in Hl.
    assert (Hk : In locator (map fst (orig_totals series_sum df)))
      by (apply orig_totals_keys; exists r; auto).
    apply in_map_iff in Hk as (o & Eo & Ho).
    exists {| Locator := fst o; OriginalValue := Some (snd o);
              GroupedValue := lookup (fst o) (grouped_totals series_sum (grouped series_sum df)) |}.
    split; [exact Eo|]. apply filter_In. split.
    + apply In_comparison. left. exists o. auto.
    + cbn [OriginalValue GroupedValue].
      destruct (lookup (fst o) (grouped_totals series_sum (grouped series_sum df))) eqn:E; [|reflexivity].
      exfalso. assert (X : lookup (fst o) (grouped_totals series_sum (grouped series_sum df)) <> None)
        by congruence.
      apply X, lookup_None. rewrite Eo. intros Hin.
      apply grouped_totals_keys in Hin as (r' & Hr' & El' & Hp').
      rewrite (Hnone r' Hr' (proj2 (with_locator_true _ _) El')) in Hp'.
      discriminate.
Qed.

Lemma filter_or_perm {A} (p q : A -> bool) (l : list A) :
  (forall x, p x = true -> q x = false) ->
  Permutation (filter (fun x => p x || q x) l) (filter p l ++ filter q l).
Proof.
  intros Hpq. induction l as [|x l IH]; cbn [filter app]; [constructor|].
  destruct (p x) eqn:Ep; cbn [orb].
  - rewrite (Hpq x Ep). cbn [app]. constructor. exact IH.
  - destruct (q x); [|exact IH].
    apply Permutation_cons_app, IH.
Qed.

Lemma with_pair_true p l r :
  with_pair p l r = true <-> Provider r = Some p /\ BookingLocator r = Some l.
Proof.
  unfold with_pair. destruct (Provider r) as [p'|], (BookingLocator r) as [l'|];
    try (split; [discriminate|intros [? ?]; discriminate]).
  rewrite andb_true_iff, !String.eqb_eq. split.
  - intros [-> ->]. auto.
  - intros [[= ->] [= ->]]. auto.
Qed.

(** The rows of distinct pairs, pair after pair, are the rows that have one
    of the pairs. *)
Lemma rows_of_pairs (keys : list (string * string)) (df : list Row) :
  NoDup keys ->
  Permutation
    (flat_map (fun k => filter (with_pair (fst k) (snd k)) df) keys)
    (filter (fun r => existsb (fun k => with_pair (fst k) (snd k) r) keys) df).
Proof.
  induction keys as [|k keys IH]; intros Hnd; cbn [flat_map existsb].
  - rewrite filter_none; [constructor|reflexivity].
  - apply NoDup_cons_iff in Hnd as [Hnot Hnd].
    rewrite (filter_or_perm (with_pair (fst k) (snd k))
               (fun r => existsb (fun k' => with_pair (fst k') (snd k') r) keys)).
    + apply Permutation_app_head, IH, Hnd.
    + intros r Hr.
      destruct (existsb _ keys) eqn:E; [|reflexivity].
      apply existsb_exists in E as (k' & Hk' & Hr').
      apply with_pair_true in Hr as [E1 E2].
      apply with_pair_true in Hr' as [E1' E2'].
      elim Hnot. destruct k as [p l], k' as [p' l']. cbn [fst snd] in *.
      congruence.
Qed.

Lemma members_of_keys {V} (df : list Row) (groups : list ((string * string) * V)) :
  flat_map (members df) groups
  = flat_map (fun k => filter (with_pair (fst k) (snd k)) df) (map fst groups).
Proof.
  induction groups as [|g groups IH]; cbn [flat_map map]; [reflexivity|].
  rewrite IH. reflexivity.
Qed.

Lemma NoDup_keys_filter {K V} (p : K * V -> bool) (l : list (K * V)) :
  NoDup (map fst l) -> NoDup (map fst (filter p l)).
Proof.
  induction l as [|x l IH]; cbn [map filter]; intros Hnd; [constructor|].
  apply NoDup_cons_iff in Hnd as [Hnot Hnd].
  destruct (p x); cbn [map]; [|apply IH, Hnd].
  constructor; [|apply IH, Hnd].
  intros Hin. apply Hnot. apply in_map_iff in Hin as (y & E & Hy).
  apply filter_In in Hy as [Hy _]. rewrite <- E. apply in_map, Hy.
Qed.

(** The raw rows behind the grouped rows of a locator. *)
Lemma members_at_locator df locator :
  Permutation
    (flat_map (members df) (filter (at_locator locator) (grouped series_sum df)))
    (filter (fun r => with_locator locator r && with_provider r) df).
Proof.
  rewrite members_of_keys.
  rewrite rows_of_pairs by apply NoDup_keys_filter, grouped_NoDup.
  replace (filter (fun r => with_locator locator r && with_provider r) df)
    with (filter (fun r => existsb (fun k => with_pair (fst k) (snd k) r)
                              (map fst (filter (at_locator locator) (grouped series_sum df))))
                 df); [reflexivity|].
  apply filter_ext_in. intros r Hr. apply Bool.eq_true_iff_eq.
  rewrite existsb_exists, andb_true_iff, with_locator_true. split.
  - intros ([p l] & Hk & Hp). cbn [fst snd] in Hp.
    apply with_pair_true in Hp as [E1 E2].
    apply in_map_iff in Hk as (g & Eg & Hg).
    apply filter_In in Hg as [_ Hl]. unfold at_locator in Hl.
    rewrite Eg in Hl. cbn [snd] in Hl. apply String.eqb_eq in Hl. subst l.
    unfold with_provider. rewrite E1. auto.
  - intros [El Hp]. unfold with_provider in Hp.
    destruct (Provider r) as [p|] eqn:Ep; [|discriminate].
    exists (p, locator). cbn [fst snd].
    split; [|apply with_pair_true; auto].
    assert (Hk : In (p, locator) (map fst (grouped series_sum df)))
      by (apply In_grouped_keys; exists r; auto).
    apply in_map_iff in Hk as (g & Eg & Hg).
    apply in_map_iff. exists g. split; [exact Eg|].
    apply filter_In. split; [exact Hg|].
    unfold at_locator. rewrite Eg. apply String.eqb_refl.
Qed.

Lemma values_of_pair df p l :
  values_of pair_eqb (p, l) (map (fun r => (provider_locator r, value r)) df)
  = map value (filter (with_pair p l) df).
Proof.
  induction df as [|r df IH]; [reflexivity|].
  cbn [map]. rewrite values_of_cons, IH. cbn [fst snd filter].
  unfold provider_locator, with_pair, pair_eqb.
  destruct (Provider r) as [p'|], (BookingLocator r) as [l'|];
    cbn [fst snd]; try reflexivity.
  destruct (String.eqb p' p && String.eqb l' l); reflexivity.
Qed.

(** The value of a grouped row is the sum, as pandas computes it, of the
    values of the raw rows with its provider and its locator. *)
Lemma grouped_value df g :
  In g (grouped series_sum df) -> snd g = series_sum (map value (members df g)).
Proof.
  destruct g as [[p l] v]. unfold grouped, members. cbn [fst snd].
  intros H. apply In_sort in H.
  apply (groupby_sum_values pair_eqb pair_ltb pair_eqb_iff) in H.
  rewrite values_of_pair in H. exact H.
Qed.

(** C10, as the code has it. The value of each grouped row is the sum, as
    pandas computes it, of the values (non-numeric ones counted as 0) of the
    raw rows with its provider and its locator, of which there is at least
    one.  For every locator, the grouped rows with that locator stand for
    the raw rows with that locator that have a Provider: each such raw row
    belongs to exactly one of them, and a raw row without a Provider belongs
    to none.  So the values behind the grouped rows of a locator are those of
    its raw rows that have a Provider, with the same exact sum; they are the
    values of all its raw rows when each has a Provider. *)
Theorem grouped_rows_stand_for_rows_with_provider
  (df : list Row) (locator : string) :
  let groups := filter (at_locator locator) (grouped series_sum df) in
  let kept := filter (fun r => with_locator locator r && with_provider r) df in
  (forall g, In g (grouped series_sum df) ->
             snd g = series_sum (map value (members df g))
             /\ members df g <> []
             /\ forall r, In r (members df g) -> with_provider r = true)
  /\ Permutation (flat_map (members df) groups) kept
  /\ Qsum (map value (flat_map (members df) groups)) == Qsum (map value kept)
  /\ ((forall r, In r df -> with_locator locator r = true ->
                  with_provider r = true) ->
      Permutation (flat_map (members df) groups)
                  (filter (with_locator locator) df)).
Proof.
  cbv zeta. pose proof (members_at_locator df locator) as Hp.
  split; [|split; [exact Hp|split]].
  - intros g Hg. split; [apply grouped_value, Hg|]. split.
    + assert (Hk : In (fst g) (map fst (grouped series_sum df)))
        by (apply in_map, Hg).
      destruct g as [[p l] v]. cbn [fst] in Hk.
      apply In_grouped_keys in Hk as (r & Hr & E1 & E2).
      unfold members. cbn [fst snd]. intros Hnil.
      assert (X : In r (filter (with_pair p l) df))
        by (apply filter_In; split; [exact Hr|apply with_pair_true; auto]).
      rewrite Hnil in X. exact X.
    + intros r Hr. apply filter_In in Hr as [_ Hr].
      apply with_pair_true in Hr as [E _]. unfold with_provider. rewrite E.
      reflexivity.
  - apply Qsum_perm, Permutation_map, Hp.
  - intros H.
    replace (filter (with_locator locator) df)
      with (filter (fun r => with_locator locator r && with_provider r) df);
      [exact Hp|].
    apply filter_ext_in. intros r Hr.
    destruct (with_locator locator r) eqn:E; [|reflexivity].
    rewrite (H r Hr E). reflexivity.
Qed.

End Sums.

End ValidationFacts.

(** ** [reconciliation.py]: the provider breakdown *)

Module ProviderBreakdownFacts.
Import Text Pandas PandasFacts Reconciliation ReconciliationFacts ProviderBreakdown.

Local Open Scope Q_scope.

Lemma Qeq_bool_trans_eq q r x :
  Qeq_bool q r = true -> Qeq_bool x q = Qeq_bool x r.
Proof.
  intros H. apply Qeq_bool_iff in H.
  destruct (Qeq_bool x q) eqn:E1, (Qeq_bool x r) eqn:E2; try reflexivity.
  - apply Qeq_bool_iff in E1. rewrite E1, H in E2.
    rewrite (proj2 (Qeq_bool_iff r r) (Qeq_refl r)) in E2. discriminate.
  - apply Qeq_bool_iff in E2. rewrite E2, <- H in E1.
    rewrite (proj2 (Qeq_bool_iff q q) (Qeq_refl q)) in E1. discriminate.
Qed.

Lemma cell_eqb_refl a : cell_eqb a a = true.
Proof.
  destruct a; cbn; [reflexivity|apply String.eqb_refl|].
  apply Qeq_bool_iff. reflexivity.
Qed.

(** Two equal keys are equal to the same keys. *)
Lemma cell_eqb_compat a b x : cell_eqb a b = true -> cell_eqb x a = cell_eqb x b.
Proof.
  destruct a, b; cbn; try discriminate; intros H.
  - reflexivity.
  - apply String.eqb_eq in H. subst. reflexivity.
  - destruct x; try reflexivity. apply Qeq_bool_trans_eq, H.
Qed.

Lemma respects_shown q : respects (fun c => cell_eqb q (shown c)).
Proof.
  intros a b H. unfold shown, fillna_cell.
  destruct a, b; cbn in H; try discriminate; cbn [isna].
  - reflexivity.
  - apply (cell_eqb_compat (Str s) (Str s0)). exact H.
  - apply (cell_eqb_compat (Num q0 repr) (Num q1 repr0)). exact H.
Qed.

Lemma respects_true : respects (fun _ => true).
Proof. intros a b _. reflexivity. Qed.

Section Counting.
Variable p : cell -> bool.
Hypothesis p_respects : respects p.

Lemma add_to_groups_records r groups :
  group_records (groups_where p (add_to_groups r groups))
  = (group_records (groups_where p groups)
     + (if p (Reconciliation.Provider r) then 1 else 0))%nat.
Proof.
  unfold groups_where, group_records.
  induction groups as [|g groups IH]; cbn [add_to_groups filter map].
  - cbn [group_of_row group_Provider].
    destruct (p (Reconciliation.Provider r)); reflexivity.
  - destruct (cell_eqb (group_Provider g) (Reconciliation.Provider r)) eqn:E.
    + cbn [filter add_row group_Provider].
      rewrite <- (p_respects _ _ E).
      destruct (p (group_Provider g));
        cbn [map fold_right group_Records add_row]; lia.
    + cbn [filter]. destruct (p (group_Provider g)); cbn [map fold_right];
        rewrite IH; lia.
Qed.

Lemma fold_groups_records df groups :
  group_records (groups_where p
                   (fold_left (fun gs r => add_to_groups r gs) df groups))
  = (group_records (groups_where p groups) + List.length (rows_where p df))%nat.
Proof.
  revert groups. induction df as [|r df IH]; intros groups; cbn [fold_left].
  - cbn. lia.
  - rewrite IH, add_to_groups_records. unfold rows_where. cbn [filter].
    destruct (p (Reconciliation.Provider r)); cbn [List.length]; lia.
Qed.

Lemma group_records_perm g g' :
  Permutation g g' -> group_records g = group_records g'.
Proof.
  unfold group_records.
  induction 1; cbn [map fold_right]; try lia.
Qed.

Lemma groupby_provider_records df :
  group_records (groups_where p (groupby_provider df))
  = List.length (rows_where p df).
Proof.
  unfold groupby_provider, groups_where.
  rewrite (group_records_perm _ _ (filter_perm _ _ _ (sort_perm _ _))).
  fold (groups_where p (fold_left (fun gs r => add_to_groups r gs) df [])).
  rewrite fold_groups_records. reflexivity.
Qed.

End Counting.

Lemma breakdown_map df category :
  breakdown_by_provider df category
  = map (row_of_group category) (groupby_provider df).
Proof. destruct df; reflexivity. Qed.

Lemma rows_of_provider_map q category groups :
  rows_of_provider q (map (row_of_group category) groups)
  = map (row_of_group category)
        (groups_where (fun c => cell_eqb q (shown c)) groups).
Proof.
  unfold rows_of_provider, groups_where.
  induction groups as [|g groups IH]; cbn [map filter]; [reflexivity|].
  cbn [row_of_group Provider]. destruct (cell_eqb q (shown (group_Provider g)));
    cbn [map]; rewrite IH; reflexivity.
Qed.

Lemma total_records_map category groups :
  total_records (map (row_of_group category) groups) = group_records groups.
Proof.
  unfold total_records, group_records. rewrite map_map. reflexivity.
Qed.

Lemma groups_where_true groups : groups_where (fun _ => true) groups = groups.
Proof. apply filter_all. reflexivity. Qed.

Lemma rows_where_true (df : list MergedRow) : rows_where (fun _ => true) df = df.
Proof. apply filter_all. reflexivity. Qed.

(** The records of a breakdown are the rows of the sheet, provider by
    provider and in total. *)
Lemma breakdown_records (df : list MergedRow) (category : string) (q : cell) :
  let rows := breakdown_by_provider df category in
  total_records (rows_of_provider q rows) = List.length (sheet_of_provider q df)
  /\ total_records rows = List.length df.
Proof.
  cbv zeta. rewrite breakdown_map. split.
  - rewrite rows_of_provider_map, total_records_map.
    apply (groupby_provider_records _ (respects_shown q)).
  - rewrite total_records_map.
    pose proof (groupby_provider_records _ respects_true df) as HR.
    rewrite groups_where_true, rows_where_true in HR. exact HR.
Qed.

(** X6. The records of a breakdown add up to the sheet it comes from: for
    every provider, the rows shown under it hold as many records as the sheet
    has rows of that provider (a missing provider counting as "Unassigned"),
    and over all providers the records add up to the size of the sheet. *)
Theorem breakdown_adds_up (df : list MergedRow) (category : string) (q : cell) :
  let rows := breakdown_by_provider df category in
  total_records (rows_of_provider q rows) = List.length (sheet_of_provider q df)
  /\ total_records rows = List.length df.
Proof. exact (breakdown_records df category q). Qed.

Lemma cell_eqb_sym a b : cell_eqb a b = cell_eqb b a.
Proof.
  destruct a, b; cbn; try reflexivity.
  - apply String.eqb_sym.
  - destruct (Qeq_bool q q0) eqn:E1, (Qeq_bool q0 q) eqn:E2; try reflexivity.
    + apply Qeq_bool_iff in E1. symmetry in E1. apply Qeq_bool_iff in E1. congruence.
    + apply Qeq_bool_iff in E2. symmetry in E2. apply Qeq_bool_iff in E2. congruence.
Qed.

Lemma In_add_to_groups g r groups :
  In g (add_to_groups r groups) ->
  In g groups \/ g = group_of_row r \/ exists g0, In g0 groups /\ g = add_row g0 r.
Proof.
  induction groups as [|g1 groups IH]; cbn [add_to_groups].
  - intros [<-|[]]. auto.
  - destruct (cell_eqb (group_Provider g1) (Reconciliation.Provider r)).
    + intros [<-|H]; [|left; right; exact H].
      right. right. exists g1. split; [left|]; reflexivity.
    + intros [<-|H]; [left; left; reflexivity|].
      destruct (IH H) as [H1|[H1|(g0 & H0 & H1)]]; auto.
      * left. right. exact H1.
      * right. right. exists g0. split; [right; exact H0|exact H1].
Qed.

(** Every group has at least one record and the provider of some row. *)
Lemma fold_groups_invariant (providers : list cell) df groups :
  incl (map Reconciliation.Provider df) providers ->
  Forall (fun g => (1 <= group_Records g)%nat /\ In (group_Provider g) providers)
         groups ->
  Forall (fun g => (1 <= group_Records g)%nat /\ In (group_Provider g) providers)
         (fold_left (fun gs r => add_to_groups r gs) df groups).
Proof.
  revert groups. induction df as [|r df IH]; intros groups Hincl Hg;
    cbn [fold_left]; [exact Hg|].
  apply IH.
  - intros x Hx. apply Hincl. right. exact Hx.
  - apply Forall_forall. intros g Hin.
    pose proof (proj1 (Forall_forall _ _) Hg) as Hall.
    apply In_add_to_groups in Hin as [H|[->|(g0 & H0 & ->)]].
    + apply Hall, H.
    + cbn [group_of_row group_Records group_Provider]. split; [lia|].
      apply Hincl. left. reflexivity.
    + cbn [add_row group_Records group_Provider]. split; [lia|].
      apply (Hall g0 H0).
Qed.

Lemma groupby_provider_invariant df :
  Forall (fun g => (1 <= group_Records g)%nat
                   /\ In (group_Provider g) (map Reconciliation.Provider df))
         (groupby_provider df).
Proof.
  apply Forall_forall. intros g Hg. unfold groupby_provider in Hg.
  apply In_sort in Hg.
  exact (proj1 (Forall_forall _ _)
           (fold_groups_invariant _ df [] (incl_refl _) (Forall_nil _)) g Hg).
Qed.

Lemma shown_not_na c : isna (shown c) = false.
Proof. destruct c; reflexivity. Qed.

(** When a breakdown is empty, and what each of its rows carries. *)
Lemma breakdown_labelled (df : list MergedRow) (category : string) :
  (breakdown_by_provider df category = [] <-> df = [])
  /\ Forall (fun r => Category r = category /\ isna (Provider r) = false
                      /\ (1 <= Records r)%nat)
            (breakdown_by_provider df category).
Proof.
  split.
  - split; [|intros ->; reflexivity].
    intros H. destruct df as [|r df]; [reflexivity|].
    pose proof (breakdown_records (r :: df) category NA) as [_ Hn].
    cbv zeta in Hn. rewrite H in Hn. discriminate Hn.
  - rewrite breakdown_map. apply Forall_forall. intros r Hr.
    apply in_map_iff in Hr as (g & <- & Hg).
    cbn [row_of_group Category Provider Records].
    split; [reflexivity|]. split; [apply shown_not_na|].
    exact (proj1 (proj1 (Forall_forall _ _) (groupby_provider_invariant df) g Hg)).
Qed.

(** X5. A breakdown is empty exactly for an empty sheet.  Each of its rows
    carries the label of the category, a provider that is never missing and
    at least one record. *)
Theorem breakdown_rows_are_labelled (df : list MergedRow) (category : string) :
  (breakdown_by_provider df category = [] <-> df = [])
  /\ Forall (fun r => Category r = category /\ isna (Provider r) = false
                      /\ (1 <= Records r)%nat)
            (breakdown_by_provider df category).
Proof. exact (breakdown_labelled df category). Qed.

Lemma add_to_groups_unique q r groups :
  (List.length (groups_where (cell_eqb q) groups) <= 1)%nat ->
  (List.length (groups_where (cell_eqb q) (add_to_groups r groups)) <= 1)%nat.
Proof.
  unfold groups_where.
  induction groups as [|g groups IH]; cbn [add_to_groups filter].
  - intros _. cbn [group_of_row group_Provider].
    destruct (cell_eqb q (Reconciliation.Provider r)); cbn; lia.
  - destruct (cell_eqb (group_Provider g) (Reconciliation.Provider r)) eqn:E.
    + cbn [filter add_row group_Provider].
      destruct (cell_eqb q (group_Provider g)); cbn [List.length]; auto.
    + cbn [filter]. destruct (cell_eqb q (group_Provider g)) eqn:Eq.
      * cbn [List.length]. intros H.
        assert (H0 : filter (fun g0 => cell_eqb q (group_Provider g0)) groups = [])
          by (destruct (filter _ groups); [reflexivity|cbn in H; lia]).
        assert (Hr : cell_eqb q (Reconciliation.Provider r) = false).
        { rewrite cell_eqb_sym.
          rewrite (cell_eqb_compat _ _ (Reconciliation.Provider r) Eq).
          rewrite cell_eqb_sym. exact E. }
        clear IH H. 
        assert (X : filter (fun g0 => cell_eqb q (group_Provider g0))
                      (add_to_groups r groups) = []).
        { revert H0. induction groups as [|g1 groups IH1]; cbn [add_to_groups filter].
          - cbn [group_of_row group_Provider]. rewrite Hr. reflexivity.
          - destruct (cell_eqb q (group_Provider g1)) eqn:E1; [discriminate|].
            intros H0.
            destruct (cell_eqb (group_Provider g1) (Reconciliation.Provider r));
              cbn [filter add_row group_Provider]; rewrite E1; auto. }
        rewrite X. cbn. lia.
      * exact IH.
Qed.

Lemma groupby_provider_unique q df :
  (List.length (groups_where (cell_eqb q) (groupby_provider df)) <= 1)%nat.
Proof.
  unfold groupby_provider, groups_where.
  rewrite (count_perm _ _ _ (sort_perm _ _)).
  fold (groups_where (cell_eqb q) (fold_left (fun gs r => add_to_groups r gs) df [])).
  assert (G : forall groups,
             (List.length (groups_where (cell_eqb q) groups) <= 1)%nat ->
             (List.length (groups_where (cell_eqb q)
                (fold_left (fun gs r => add_to_groups r gs) df groups)) <= 1)%nat).
  { induction df as [|r df IH]; intros groups H; cbn [fold_left]; [exact H|].
    apply IH, add_to_groups_unique, H. }
  apply G. cbn. lia.
Qed.

(** One row for a provider when no provider of the sheet is missing. *)
Lemma breakdown_unique (df : list MergedRow) (category : string) (q : cell) :
  (forall r, In r df -> isna (Reconciliation.Provider r) = false) ->
  (List.length (rows_of_provider q (breakdown_by_provider df category)) <= 1)%nat.
Proof.
  intros Hna. rewrite breakdown_map, rows_of_provider_map, length_map.
  replace (groups_where (fun c => cell_eqb q (shown c)) (groupby_provider df))
    with (groups_where (cell_eqb q) (groupby_provider df));
    [apply groupby_provider_unique|].
  unfold groups_where. apply filter_ext_in. intros g Hg.
  pose proof (proj1 (Forall_forall _ _) (groupby_provider_invariant df) g Hg)
    as [_ Hin].
  apply in_map_iff in Hin as (r & E & Hr). specialize (Hna r Hr).
  rewrite <- E. unfold shown, fillna_cell. rewrite Hna. reflexivity.
Qed.

(** X8. When no row of the sheet has a missing provider, the breakdown has
    at most one row for each provider. *)
Theorem one_row_per_provider (df : list MergedRow) (category : string) (q : cell) :
  (forall r, In r df -> isna (Reconciliation.Provider r) = false) ->
  (List.length (rows_of_provider q (breakdown_by_provider df category)) <= 1)%nat.
Proof. exact (breakdown_unique df category q). Qed.

Lemma one_row_per_provider_witness :
  let df := merged_frame [order "A" 1; order "B" 2] [commission "A" 1] in
  (forall r, In r df -> isna (Reconciliation.Provider r) = false)
  /\ (List.length (rows_of_provider (Str "Unassigned")
                      (breakdown_by_provider df "Perfect Match")) <= 1)%nat.
Proof.
  cbv zeta.
  assert (H : forall r,
             In r (merged_frame [order "A" 1; order "B" 2] [commission "A" 1]) ->
             isna (Reconciliation.Provider r) = false).
  { intros r [<-|[<-|[]]]; reflexivity. }
  split; [exact H|].
  exact (one_row_per_provider _ "Perfect Match" (Str "Unassigned") H).
Defined.

(** Without that condition a sheet with a missing provider and a provider
    named "Unassigned" gets two rows that both read "Unassigned". *)
Example two_unassigned_rows :
  map Provider
      (breakdown_by_provider
         [ {| key := "A"; provider_orders := NA; provider_commissions := NA;
              Reconciliation.ExpectedCommissionUSD := 1;
              Reconciliation.BilledCommissionUSD := 0;
              Reconciliation.CommissionGapUSD := 1;
              Reconciliation.Provider := NA; _merge := left_only |};
           {| key := "B"; provider_orders := Str "Unassigned";
              provider_commissions := NA;
              Reconciliation.ExpectedCommissionUSD := 1;
              Reconciliation.BilledCommissionUSD := 0;
              Reconciliation.CommissionGapUSD := 1;
              Reconciliation.Provider := Str "Unassigned"; _merge := left_only |} ]
         "Orders Missing Commission")
  = [Str "Unassigned"; Str "Unassigned"].
Proof. reflexivity. Qed.

End ProviderBreakdownFacts.

(** ** [reconciliation.py]: a whole run *)

Module RunFacts.
Import Text Pandas PandasFacts TextFacts ProviderBreakdown ProviderBreakdownFacts
       Reconciliation ReconciliationFacts.

Local Open Scope Q_scope.

(** A merged frame that [load] returns comes from two loaded sheets. *)
Lemma load_merged config workbook provider_map merged :
  load config workbook provider_map = Ok merged ->
  exists i, read_inputs config workbook = Ok i
            /\ merged = merged_of i provider_map.
Proof.
  unfold load, bind.
  destruct (read_inputs config workbook) as [i|e|]; try discriminate.
  intros [= <-]. exists i. auto.
Qed.

(** The rows of a merged frame made of loaded sheets. *)
Lemma loaded_row_facts i provider_map r :
  In r (merged_of i provider_map) ->
  sall is_key_char (key r) = true
  /\ isna (Provider r) = false
  /\ (_merge r = left_only -> BilledCommissionUSD r = 0)
  /\ (_merge r = right_only -> ExpectedCommissionUSD r = 0).
Proof.
  unfold merged_of.
  intros Hr. apply In_merged_frame in Hr as (m & Hm & ->).
  assert (Hp : isna (Provider (fill m)) = false).
  { cbn [fill Provider]. unfold fillna_cell, combine_first.
    destruct (Merge.provider_orders m), (Merge.provider_commissions m);
      reflexivity. }
  apply In_outer_rows in Hm
    as [(o & c & Hio & _ & _ & ->)|[(o & Hio & _ & ->)|(c & Hic & _ & ->)]].
  - apply in_map_iff in Hio as (x & <- & _).
    split; [apply normalize_str_key_chars|]. split; [exact Hp|].
    split; discriminate.
  - apply in_map_iff in Hio as (x & <- & _).
    split; [apply normalize_str_key_chars|]. split; [exact Hp|].
    split; [reflexivity|discriminate].
  - apply in_map_iff in Hic as (x & <- & _).
    split; [apply normalize_str_key_chars|]. split; [exact Hp|].
    split; [discriminate|reflexivity].
Qed.

Lemma In_sheet_merged merged tol path r :
  let out := report merged tol path in
  In r (matches out) \/ In r (gaps out)
  \/ In r (orders_only out) \/ In r (commissions_only out) ->
  In r merged.
Proof.
  cbn [report matches gaps orders_only commissions_only].
  intros [H|[H|[H|H]]].
  - apply In_matches in H. tauto.
  - apply In_gaps in H as [H _]. apply In_matches in H. tauto.
  - apply In_orders_only in H. tauto.
  - apply In_commissions_only in H. tauto.
Qed.

(** X9. On the four sheets that a run hands to the writer, every key is
    made of digits and capital letters only, no provider is missing, a row
    without commission has billed 0 and a row without order has expected
    0. *)
Theorem output_rows_are_well_formed config workbook provider_map out r :
  main config workbook provider_map = Ok out ->
  In r (matches out) \/ In r (gaps out)
  \/ In r (orders_only out) \/ In r (commissions_only out) ->
  sall is_key_char (key r) = true
  /\ isna (Provider r) = false
  /\ (_merge r = left_only -> BilledCommissionUSD r = 0)
  /\ (_merge r = right_only -> ExpectedCommissionUSD r = 0).
Proof.
  intros H Hr. apply main_report in H as (merged & tol & path & Hl & _ & _ & ->).
  apply In_sheet_merged in Hr.
  apply load_merged in Hl as (i & _ & ->).
  eapply loaded_row_facts, Hr.
Qed.

Lemma output_rows_are_well_formed_witness :
  exists out,
    main (sample_config None) sample_workbook [] = Ok out
    /\ In sample_pair (matches out)
    /\ sall is_key_char (key sample_pair) = true
    /\ isna (Provider sample_pair) = false.
Proof.
  eexists. split; [vm_compute; reflexivity|].
  assert (H : main (sample_config None) sample_workbook []
              = Ok (report (merged_of sample_inputs []) (1 # 4) "out.xlsx"))
    by (vm_compute; reflexivity).
  assert (Hin : In sample_pair
                  (matches (report (merged_of sample_inputs [])
                                   (1 # 4) "out.xlsx")))
    by (left; reflexivity).
  split; [left; reflexivity|].
  pose proof (output_rows_are_well_formed _ _ _ _ sample_pair H (or_introl Hin))
    as (H1 & H2 & _).
  split; [exact H1|exact H2].
Defined.

(** *** The summary and the provider summary *)

(** The sheets of a run; none of their rows has a missing provider. *)
Lemma run_sheets config workbook provider_map out :
  main config workbook provider_map = Ok out ->
  exists merged tol path,
    out = report merged tol path
    /\ forall r, In r merged -> isna (Provider r) = false.
Proof.
  intros H. apply main_report in H as (merged & tol & path & Hl & _ & _ & ->).
  exists merged, tol, path.
  split; [reflexivity|]. intros r Hr.
  apply load_merged in Hl as (i & _ & ->).
  apply loaded_row_facts in Hr. tauto.
Qed.

Lemma of_category_app c l l' :
  of_category c (l ++ l') = (of_category c l ++ of_category c l')%list.
Proof. apply filter_app. Qed.

Lemma of_category_same df c :
  of_category c (breakdown_by_provider df c) = breakdown_by_provider df c.
Proof.
  unfold of_category. apply filter_all. intros r Hr.
  pose proof (proj1 (Forall_forall _ _)
                (proj2 (breakdown_labelled df c)) r Hr) as [E _].
  rewrite E. apply String.eqb_refl.
Qed.

Lemma of_category_other df c c' :
  String.eqb c' c = false -> of_category c (breakdown_by_provider df c') = [].
Proof.
  intros Hne. unfold of_category. apply ValidationFacts.filter_none. intros r Hr.
  pose proof (proj1 (Forall_forall _ _)
                (proj2 (breakdown_labelled df c')) r Hr) as [E _].
  rewrite E. exact Hne.
Qed.

(** X7. In every run the provider summary agrees with the summary on the
    records: for each row of the summary, the rows of the provider summary
    under the same category hold together as many records, and there is at
    most one of them for each provider. *)
Theorem provider_summary_agrees_with_summary config workbook provider_map out s :
  main config workbook provider_map = Ok out ->
  In s (summary out) ->
  let rows := of_category (Summary.Category s) (provider_summary out) in
  total_records rows = Summary.Records s
  /\ forall q, (List.length (rows_of_provider q rows) <= 1)%nat.
Proof.
  intros H Hs.
  apply run_sheets in H as (merged & tol & path & -> & Hrows).
  cbn [report summary matches gaps orders_only commissions_only] in *.
  assert (Hna : forall l, incl l merged ->
             forall r, In r l -> isna (Provider r) = false).
  { intros l Hl r Hr. apply (Hrows r (Hl r Hr)). }
  assert (Hm : incl (matches_of merged) merged)
    by (intros r Hr; apply In_matches in Hr; tauto).
  assert (Hg : incl (gaps_of tol merged) merged)
    by (intros r Hr; apply In_gaps in Hr as [Hr _]; apply Hm, Hr).
  assert (Ho : incl (orders_only_of merged) merged)
    by (intros r Hr; apply In_orders_only in Hr; tauto).
  assert (Hc : incl (commissions_only_of merged) merged)
    by (intros r Hr; apply In_commissions_only in Hr; tauto).
  unfold provider_summary.
  cbn [report matches gaps orders_only commissions_only].
  unfold summary_of in Hs.
  destruct Hs as [<-|[<-|[<-|[<-|[]]]]];
    cbn [Summary.Category Summary.Records];
    cbv zeta; rewrite !of_category_app, of_category_same,
      !of_category_other by reflexivity;
    cbn [app]; rewrite ?app_nil_r.
  - split; [apply (breakdown_records _ _ NA)|].
    intros q. apply breakdown_unique, (Hna _ Hm).
  - split; [apply (breakdown_records _ _ NA)|].
    intros q. apply breakdown_unique, (Hna _ Hg).
  - split; [apply (breakdown_records _ _ NA)|].
    intros q. apply breakdown_unique, (Hna _ Ho).
  - split; [apply (breakdown_records _ _ NA)|].
    intros q. apply breakdown_unique, (Hna _ Hc).
Qed.

Lemma provider_summary_agrees_with_summary_witness :
  exists out,
    main (sample_config None) sample_workbook [] = Ok out
    /\ forall s, In s (summary out) ->
         total_records (of_category (Summary.Category s) (provider_summary out))
         = Summary.Records s.
Proof.
  eexists. split; [vm_compute; reflexivity|]. intros s Hs.
  apply (provider_summary_agrees_with_summary
           (sample_config None) sample_workbook [] _ s);
    [vm_compute; reflexivity|exact Hs].
Defined.

(** *** The configuration *)

Lemma cfg_from_first entries skipped k rest v :
  (forall b, In b skipped -> lookup b entries = None) ->
  lookup k entries = Some v ->
  cfg_from entries (skipped ++ k :: rest) = Some v.
Proof.
  induction skipped as [|b bs IH]; cbn [app cfg_from]; intros Hs Hk.
  - rewrite Hk. reflexivity.
  - rewrite (Hs b (or_introl eq_refl)). apply IH; [|exact Hk].
    intros b' Hb'. apply Hs. right. exact Hb'.
Qed.

Lemma cfg_from_none entries keys :
  cfg_from entries keys = None <-> forall k, In k keys -> lookup k entries = None.
Proof.
  induction keys as [|k keys IH]; cbn [cfg_from In].
  - split; [intros _ k []|reflexivity].
  - destruct (lookup k entries) as [v|] eqn:E.
    + split; [discriminate|]. intros H. rewrite (H k (or_introl eq_refl)) in E.
      discriminate.
    + rewrite IH. split.
      * intros H k' [<-|Hk']; [exact E|apply H, Hk'].
      * intros H k' Hk'. apply H. right. exact Hk'.
Qed.

(** X1. [cfg] returns the value of the first of the given keys that the
    configuration holds, whatever the later keys hold; it raises exactly
    when the configuration holds none of them, and what it raises is the
    [KeyError] that lists the keys asked for. *)
Theorem cfg_first_key_wins (config : Config) (skipped rest : list string)
  (k v : string) :
  (forall b, In b skipped -> lookup b (entries config) = None) ->
  lookup k (entries config) = Some v ->
  cfg config (skipped ++ k :: rest) = Ok v
  /\ (forall keys e, cfg config keys = Raise e ->
                     e = KeyError keys
                     /\ forall k', In k' keys -> lookup k' (entries config) = None)
  /\ (forall keys, (forall k', In k' keys -> lookup k' (entries config) = None) ->
                   cfg config keys = Raise (KeyError keys)).
Proof.
  intros Hs Hk. unfold cfg. split; [|split].
  - rewrite (cfg_from_first _ _ _ _ _ Hs Hk). reflexivity.
  - intros keys e. destruct (cfg_from (entries config) keys) eqn:E; [discriminate|].
    intros [= <-]. split; [reflexivity|]. apply cfg_from_none, E.
  - intros keys H. apply cfg_from_none in H. rewrite H. reflexivity.
Qed.

Lemma cfg_first_key_wins_witness :
  (forall b, In b ["odv_sheet"] ->
             lookup b (entries (sample_config None)) = None)
  /\ lookup "orders_sheet" (entries (sample_config None)) = Some "Orders"
  /\ cfg (sample_config None) (["odv_sheet"] ++ "orders_sheet" :: ["input_file"])
     = Ok "Orders".
Proof.
  assert (H : forall b, In b ["odv_sheet"] ->
                        lookup b (entries (sample_config None)) = None).
  { intros b [<-|[]]. reflexivity. }
  split; [exact H|]. split; [reflexivity|].
  exact (proj1 (cfg_first_key_wins (sample_config None) ["odv_sheet"]
                  ["input_file"] "orders_sheet" "Orders" H eq_refl)).
Defined.

(** *** The tolerance *)

(** X4. Raising the tolerance never adds a gap: the gaps at a larger
    tolerance are the gaps at the smaller one that still exceed it. *)
Theorem gaps_shrink_as_tolerance_grows (merged : list MergedRow) (tol tol' : Q) :
  tol <= tol' ->
  gaps_of tol' merged = filter (over_tolerance tol') (gaps_of tol merged)
  /\ incl (gaps_of tol' merged) (gaps_of tol merged)
  /\ (List.length (gaps_of tol' merged) <= List.length (gaps_of tol merged))%nat.
Proof.
  intros Hle.
  assert (E : gaps_of tol' merged
              = filter (over_tolerance tol') (gaps_of tol merged)).
  { unfold gaps_of. generalize (matches_of merged) as l.
    induction l as [|r l IH]; cbn [filter]; [reflexivity|].
    destruct (over_tolerance tol' r) eqn:E'.
    - assert (Et : over_tolerance tol r = true).
      { unfold over_tolerance in *. apply Qgtb_lt. apply Qgtb_lt in E'.
        apply Qle_lt_trans with tol'; assumption. }
      rewrite Et. cbn [filter]. rewrite E', IH. reflexivity.
    - destruct (over_tolerance tol r); cbn [filter]; rewrite ?E'; exact IH. }
  split; [exact E|]. rewrite E. split.
  - intros r Hr. apply filter_In in Hr. tauto.
  - apply filter_length_le.
Qed.

Lemma gaps_shrink_as_tolerance_grows_witness :
  let merged := merged_frame [order "A" 100; order "B" 50]
                             [commission "A" 99; commission "B" 40] in
  (1 # 4) <= 5
  /\ List.length (gaps_of 5 merged) = 1%nat
  /\ (List.length (gaps_of 5 merged) <= List.length (gaps_of (1 # 4) merged))%nat.
Proof.
  cbv zeta.
  assert (H : (1 # 4) <= 5) by (unfold Qle; cbn; lia).
  split; [exact H|]. split; [reflexivity|].
  exact (proj2 (proj2 (gaps_shrink_as_tolerance_grows
                         (merged_frame [order "A" 100; order "B" 50]
                                       [commission "A" 99; commission "B" 40])
                         (1 # 4) 5 H))).
Defined.

(** *** Orders under duplicate keys *)

(** X14. Over the sheets [matches] and [orders_only] together, every order
    counts its expected amount once for each commission that shares its key,
    and once when no commission does. *)
Theorem orders_count_once_per_matching_commission
  (orders : list Orders.row) (commissions : list Commissions.row)
  (tol : Q) (path : string) :
  let out := report (merged_frame orders commissions) tol path in
  Qsum (map ExpectedCommissionUSD (matches out))
  + Qsum (map ExpectedCommissionUSD (orders_only out))
  == Qsum (map (fun o => times (copies commissions o)
                               (Orders.ExpectedCommissionUSD o)) orders).
Proof.
  cbn [report matches orders_only].
  exact (expected_of_orders_with_copies orders commissions).
Qed.

End RunFacts.
